(** * Weight-training description parser: model and verification

    Shallow embedding of [scripts/parse_weight_training.py]:
    [parse_set_line], [parse_weight_training_description] and
    [get_weight_training_metrics].

    - A Python [str] is a list of Unicode code points ([list N]).
    - The character tables of the Unicode database used by [re], [str.strip]
      and [str.lower] are a parameter ([UnicodeData]); every general theorem
      holds for any tables.  [ascii_data] gives them on ASCII text and is used
      to run the functions on concrete inputs.
    - A Python [float] is an IEEE 754 binary64 number ([spec_float] with
      precision 53 and maximal exponent 1024); a Python [int] is a [Z].
    - [re.search] is a backtracking matcher with greedy quantifiers and
      capturing groups over a regular-expression syntax tree.
    - A raised exception is an explicit [Raised] outcome.  The interpreter's
      limit on the number of digits accepted by [int()] is taken at its
      default, 4300.
    - Mutable objects (the set of seen exercises, the result dictionaries)
      live in an object store where a property is about them
      ([parse_weight_training_description_obj]); elsewhere the loop is a
      function on the values of its local variables. *)

From Stdlib Require Import ZArith NArith String Ascii.
From Stdlib Require Import SpecFloat.
From stdpp Require Import base option list gmap.

#[local] Open Scope Z_scope.

(** ** Strings *)

Abbreviation char := N (only parsing).
Abbreviation str := (list N) (only parsing).

(** An ASCII literal as a list of code points. *)
Definition u (s : string) : str :=
  List.map N_of_ascii (list_ascii_of_string s).

(** The multiplication sign, U+00D7. *)
Definition times_sign : char := 215%N.
Definition newline : char := 10%N.
Definition full_stop : char := 46%N.

(** The tables of the Unicode database the program consults through [re]
    ([\d], [\s]), [str.strip], [str.lower], [float] and [int]. *)
Class UnicodeData := {
  isdecimal : char -> bool;      (* general category Nd: [\d] *)
  decimal_value : char -> N;     (* the digit's value *)
  isspace : char -> bool;        (* [\s] and the characters [strip] removes *)
  str_lower : str -> str         (* [str.lower] *)
}.

Definition ascii_isdecimal (c : char) : bool := (48 <=? c)%N && (c <=? 57)%N.
Definition ascii_decimal_value (c : char) : N := (c - 48)%N.
Definition ascii_isspace (c : char) : bool :=
  ((9 <=? c)%N && (c <=? 13)%N) || ((28 <=? c)%N && (c <=? 32)%N).
Definition ascii_lower_char (c : char) : char :=
  if (65 <=? c)%N && (c <=? 90)%N then (c + 32)%N else c.

Definition ascii_lower (s : str) : str := List.map ascii_lower_char s.

(** The tables restricted to ASCII text. *)
Definition ascii_data : UnicodeData := {|
  isdecimal := ascii_isdecimal;
  decimal_value := ascii_decimal_value;
  isspace := ascii_isspace;
  str_lower := ascii_lower
|}.

Fixpoint starts_with (p s : str) : bool :=
  match p, s with
  | [], _ => true
  | a :: p', b :: s' => (a =? b)%N && starts_with p' s'
  | _ :: _, [] => false
  end.

(** [needle in hay]. *)
Fixpoint contains (needle hay : str) : bool :=
  starts_with needle hay ||
  match hay with
  | [] => false
  | _ :: hay' => contains needle hay'
  end.

Fixpoint drop_while (p : char -> bool) (s : str) : str :=
  match s with
  | [] => []
  | c :: s' => if p c then drop_while p s' else s
  end.

(** [s.split(sep)] for a one-character separator. *)
Fixpoint split_on (sep : char) (s : str) : list str :=
  match s with
  | [] => [[]]
  | c :: s' =>
      if (c =? sep)%N then [] :: split_on sep s'
      else match split_on sep s' with
           | h :: t => (c :: h) :: t
           | [] => [[c]]
           end
  end.

(** ** Regular expressions *)

Inductive cclass :=
| CDigit                    (* [\d] *)
| CSpace                    (* [\s] *)
| COneOf (cs : list N).     (* a literal character or a set [[...]] *)

Inductive regex :=
| REps
| RChar (c : cclass)
| RStar (c : cclass)              (* [c*], greedy *)
| RPlus (c : cclass)              (* [c+], greedy *)
| RSeq (r1 r2 : regex)
| RAlt (r1 r2 : regex)            (* [r1|r2], [r1] tried first *)
| ROpt (r : regex)                (* [(?:r)?], greedy *)
| RGroup (n : nat) (r : regex).   (* capturing group number [n] *)

Definition lit (c : char) : regex := RChar (COneOf [c]).

(** A literal word. *)
Fixpoint word (s : str) : regex :=
  match s with
  | [] => REps
  | [c] => lit c
  | c :: s' => RSeq (lit c) (word s')
  end.

(** [match.group(n)] for each group that took part in the match. *)
Abbreviation groups := (gmap nat (list N)) (only parsing).

Definition orelse {A} (x y : option A) : option A :=
  match x with
  | Some a => Some a
  | None => y
  end.

Section Matcher.
Context {U : UnicodeData}.

Definition in_class (c : cclass) (x : char) : bool :=
  match c with
  | CDigit => isdecimal x
  | CSpace => isspace x
  | COneOf cs => existsb (N.eqb x) cs
  end.

(** Greedy repetition of a one-character class: the longest run first,
    giving one character back at each failure of the continuation. *)
Fixpoint star_match {A} (p : char -> bool) (k : str -> option A) (s : str)
  : option A :=
  match s with
  | c :: s' => if p c then orelse (star_match p k s') (k s) else k s
  | [] => k []
  end.

(** [rmatch r s g k]: match [r] at the start of [s] with the groups [g]
    recorded so far, then continue with [k] on the rest; the first success
    in backtracking order. *)
Fixpoint rmatch (r : regex) (s : str) (g : groups)
    (k : str -> groups -> option groups) : option groups :=
  match r with
  | REps => k s g
  | RChar c =>
      match s with
      | x :: s' => if in_class c x then k s' g else None
      | [] => None
      end
  | RStar c => star_match (in_class c) (fun s' => k s' g) s
  | RPlus c =>
      match s with
      | x :: s' =>
          if in_class c x
          then star_match (in_class c) (fun s' => k s' g) s'
          else None
      | [] => None
      end
  | RSeq r1 r2 => rmatch r1 s g (fun s1 g1 => rmatch r2 s1 g1 k)
  | RAlt r1 r2 => orelse (rmatch r1 s g k) (rmatch r2 s g k)
  | ROpt r1 => orelse (rmatch r1 s g k) (k s g)
  | RGroup n r1 =>
      rmatch r1 s g
        (fun s1 g1 => k s1 (<[n := take (length s - length s1)%nat s]> g1))
  end.

(** [re.search(r, s)]: the match at the leftmost position that has one. *)
Fixpoint re_search (r : regex) (s : str) : option groups :=
  match rmatch r s ∅ (fun _ g => Some g) with
  | Some g => Some g
  | None =>
      match s with
      | [] => None
      | _ :: s' => re_search r s'
      end
  end.

(** The words a regular expression denotes. *)
Fixpoint lang (r : regex) (w : str) : Prop :=
  match r with
  | REps => w = []
  | RChar c => exists x, w = [x] /\ in_class c x = true
  | RStar c => forallb (in_class c) w = true
  | RPlus c => w <> [] /\ forallb (in_class c) w = true
  | RSeq r1 r2 => exists w1 w2, w = w1 ++ w2 /\ lang r1 w1 /\ lang r2 w2
  | RAlt r1 r2 => lang r1 w \/ lang r2 w
  | ROpt r1 => w = [] \/ lang r1 w
  | RGroup _ r1 => lang r1 w
  end.

Definition strip (s : str) : str :=
  rev (drop_while isspace (rev (drop_while isspace s))).
End Matcher.

(** ** The two patterns of the program *)

(** [(?:lbs?|pounds?|kg|kilograms?)] *)
Definition unit_token : regex :=
  RAlt (RSeq (word (u "lb")) (ROpt (lit 115%N)))
    (RAlt (RSeq (word (u "pound")) (ROpt (lit 115%N)))
       (RAlt (word (u "kg"))
          (RSeq (word (u "kilogram")) (ROpt (lit 115%N))))).

(** [[xX×]] *)
Definition separator : regex := RChar (COneOf [120%N; 88%N; times_sign]).

(** [\d+(?:\.\d+)?] *)
Definition number : regex :=
  RSeq (RPlus CDigit) (ROpt (RSeq (lit full_stop) (RPlus CDigit))).

(** [(\d+(?:\.\d+)?)\s*(?:lbs?|pounds?|kg|kilograms?)?\s*[xX×]\s*(\d+)] *)
Definition set_pattern : regex :=
  RSeq (RGroup 1 number)
    (RSeq (RStar CSpace)
       (RSeq (ROpt unit_token)
          (RSeq (RStar CSpace)
             (RSeq separator
                (RSeq (RStar CSpace) (RGroup 2 (RPlus CDigit))))))).

(** [\d+\s*[xX×]\s*\d+] *)
Definition guard_pattern : regex :=
  RSeq (RPlus CDigit)
    (RSeq (RStar CSpace)
       (RSeq separator (RSeq (RStar CSpace) (RPlus CDigit)))).

(** ** Floating-point numbers: IEEE 754 binary64 *)

Abbreviation float := spec_float (only parsing).

Definition prec : Z := 53.
Definition emax : Z := 1024.

Definition fzero : float := S754_zero false.
Definition fmul : float -> float -> float := SFmul prec emax.
Definition fadd : float -> float -> float := SFadd prec emax.
Definition fle : float -> float -> bool := SFleb.

Definition is_nan (x : float) : bool :=
  match x with
  | S754_nan => true
  | _ => false
  end.

Definition is_infinite (x : float) : bool :=
  match x with
  | S754_infinity _ => true
  | _ => false
  end.

(** The binary64 number nearest to [m * 2^e] for a natural [m], ties to even;
    infinity when the rounded value is out of range. *)
Definition round_binary64 (m : N) (e : Z) : float :=
  binary_normalize prec emax (Z.of_N m) e false.

(** The binary64 number nearest to the fraction [p / q], ties to even.  The
    quotient is computed to at least 64 bits and the remainder is folded into
    one more low bit, so that the single rounding to 53 bits is the rounding
    of the exact fraction. *)
Definition float_of_ratio (p : N) (q : positive) : float :=
  let e := Z.log2 (Z.of_N p) - Z.log2 (Z.pos q) - 64 in
  let num := if e <? 0 then Z.of_N p * 2 ^ (- e) else Z.of_N p in
  let den := if e <? 0 then Z.pos q else Z.pos q * 2 ^ e in
  let sticky := if num mod den =? 0 then 0 else 1 in
  round_binary64 (Z.to_N (2 * (num / den) + sticky)) (e - 1).

(** The literal [2.20462]. *)
Definition kg_to_lbs : float := float_of_ratio 220462 100000.

(** [round(x, 2)]: the exact value of [x] rounded to the nearest multiple of
    1/100, ties to the even one, then converted back to the nearest float;
    zeros, infinities and NaN round to themselves. *)
Definition round_half_even (num den : Z) : Z :=
  let q := num / den in
  match 2 * (num mod den) ?= den with
  | Lt => q
  | Eq => if Z.even q then q else q + 1
  | Gt => q + 1
  end.

Definition round2 (x : float) : float :=
  match x with
  | S754_finite s m e =>
      let hundredths :=
        if e <? 0 then round_half_even (Z.pos m * 100) (2 ^ (- e))
        else Z.pos m * 100 * 2 ^ e in
      let r := float_of_ratio (Z.to_N hundredths) 100 in
      if s then SFopp r else r
  | _ => x
  end.

(** ** Exceptions *)

Inductive exn := OverflowError | ValueError.

Inductive outcome (A : Type) :=
| Returned (a : A)
| Raised (e : exn).
Arguments Returned {A} a.
Arguments Raised {A} e.

Definition bind {A B} (x : outcome A) (f : A -> outcome B) : outcome B :=
  match x with
  | Returned a => f a
  | Raised e => Raised e
  end.

(** The float nearest to an integer, ties to even; infinity when the
    integer is out of range. *)
Definition int_as_float (n : Z) : float :=
  binary_normalize prec emax n 0 false.

(** The conversion of an [int] operand in [float * int]: the nearest float,
    [OverflowError] when the integer is too large. *)
Definition float_of_int (n : Z) : outcome float :=
  let r := int_as_float n in
  if is_infinite r then Raised OverflowError else Returned r.

(** The default of [sys.int_info.default_max_str_digits]: the most digits
    [int()] reads from text. *)
Definition int_max_str_digits : Z := 4300.

(** ** Python values *)

(** A description, or the value of an activity's attribute: [None] or text. *)
Inductive pyval :=
| PyNone
| PyStr (s : list N).

(** Truth value of an object in [if], [not] and [or]. *)
Definition truthy (v : pyval) : bool :=
  match v with
  | PyNone => false
  | PyStr [] => false
  | PyStr (_ :: _) => true
  end.

Definition str_of (v : pyval) : str :=
  match v with
  | PyNone => []
  | PyStr s => s
  end.

(** The result dictionary, with its four keys. *)
Record Metrics := {
  total_volume_lbs : float;
  total_sets : Z;
  total_reps : Z;
  exercise_count : Z
}.

(** The local variables of the aggregation loop. *)
Record State := {
  total_volume : float;
  sets_so_far : Z;
  reps_so_far : Z;
  exercises : gset (list N);
  current_exercise : option (list N)
}.

Definition before_char (c : char) : str -> str :=
  fix go s :=
    match s with
    | [] => []
    | x :: s' => if (x =? c)%N then [] else x :: go s'
    end.

Definition after_char (c : char) : str -> str :=
  fix go s :=
    match s with
    | [] => []
    | x :: s' => if (x =? c)%N then s' else go s'
    end.

Section Program.
Context {U : UnicodeData}.

Definition digits_value (s : str) : N :=
  fold_left (fun acc c => (acc * 10 + decimal_value c)%N) s 0%N.

(** [int(s)] on a string of decimal digits: [ValueError] when the string
    has more digits than the interpreter's limit. *)
Definition py_int (s : str) : outcome Z :=
  if int_max_str_digits <? Z.of_nat (length s) then Raised ValueError
  else Returned (Z.of_N (digits_value s)).

(** [float(s)] on a string of the shape digits[.digits], the shape of
    group 1 of [set_pattern]: the float nearest to the decimal number. *)
Definition py_float (s : str) : float :=
  let frac := after_char full_stop s in
  float_of_ratio (digits_value (before_char full_stop s ++ frac))
    (Z.to_pos (10 ^ Z.of_nat (length frac))).

(** [match.group(n)]; both groups of [set_pattern] take part in each of its
    matches ([set_pattern_groups]). *)
Definition group (m : groups) (n : nat) : str := default [] (m !! n).

Definition mentions_kg (line : str) : bool :=
  contains (u "kg") (str_lower line)
  || contains (u "kilogram") (str_lower line).

Definition parse_set_line (line : str) : outcome (option (float * Z)) :=
  match re_search set_pattern line with
  | None => Returned None
  | Some m =>
      let weight := py_float (group m 1) in
      bind (py_int (group m 2)) (fun reps =>
      let weight :=
        if mentions_kg line then fmul weight kg_to_lbs else weight in
      Returned (Some (weight, reps)))
  end.

(** The condition under which a line that is not a set becomes the
    current exercise (source lines 87 to 91). *)
Definition looks_like_exercise (line : str) : bool :=
  negb (bool_decide (is_Some (re_search guard_pattern line)))
  && negb (starts_with (u "set ") (str_lower line))
  && negb (starts_with (u "logged with") (str_lower line))
  && negb (starts_with (u "rep ") (str_lower line))
  && (3 <? Z.of_nat (length line)).

(** [exercises.add(current_exercise)] under [if current_exercise:]. *)
Definition add_current (cur : option (list N)) (seen : gset (list N))
  : gset (list N) :=
  match cur with
  | Some (c :: e) => {[ c :: e ]} ∪ seen
  | _ => seen
  end.

(** One iteration of the loop over the lines. *)
Definition step (st : State) (raw : str) : outcome State :=
  let line := strip raw in
  match line with
  | [] => Returned st
  | _ :: _ =>
      bind (parse_set_line line) (fun set_data =>
      match set_data with
      | Some (weight, reps) =>
          bind (float_of_int reps) (fun freps =>
          Returned {|
            total_volume := fadd (total_volume st) (fmul weight freps);
            sets_so_far := sets_so_far st + 1;
            reps_so_far := reps_so_far st + reps;
            exercises := add_current (current_exercise st) (exercises st);
            current_exercise := current_exercise st
          |})
      | None =>
          if looks_like_exercise line then
            Returned {|
              total_volume := total_volume st;
              sets_so_far := sets_so_far st;
              reps_so_far := reps_so_far st;
              exercises := exercises st;
              current_exercise := Some line
            |}
          else Returned st
      end)
  end.

Fixpoint run_lines (st : State) (lines : list str) : outcome State :=
  match lines with
  | [] => Returned st
  | l :: rest => bind (step st l) (fun st' => run_lines st' rest)
  end.

(** The values the locals are given before the loop. *)
Definition init_state : State := {|
  total_volume := fzero;
  sets_so_far := 0;
  reps_so_far := 0;
  exercises := ∅;
  current_exercise := None
|}.

Definition zero_metrics : Metrics := {|
  total_volume_lbs := fzero;
  total_sets := 0;
  total_reps := 0;
  exercise_count := 0
|}.

Definition finish (st : State) : Metrics := {|
  total_volume_lbs := round2 (total_volume st);
  total_sets := sets_so_far st;
  total_reps := reps_so_far st;
  exercise_count := Z.of_nat (size (exercises st))
|}.

Definition parse_weight_training_description (description : pyval)
  : outcome Metrics :=
  if negb (truthy description) then Returned zero_metrics
  else
    bind (run_lines init_state (split_on newline (str_of description)))
      (fun st => Returned (finish st)).

(** [activity.get('description', '') or ''], then the aggregator. *)
Definition get_weight_training_metrics (activity : gmap (list N) pyval)
  : outcome Metrics :=
  let found := default (PyStr []) (activity !! u "description") in
  let description := if truthy found then found else PyStr [] in
  parse_weight_training_description description.
End Program.

(** Lines of ASCII text joined by newlines. *)
Definition unlines (ls : list string) : str :=
  match ls with
  | [] => []
  | l :: rest => u l ++ flat_map (fun x => newline :: u x) rest
  end.

Definition hevy_log : str := unlines [
  "Logged with Hevy"; "";
  "Chest Press (Machine)";
  "Set 1: 175 lbs x 7"; "Set 2: 175 lbs x 6"; "Set 3: 170 lbs x 6 [Failure]";
  "";
  "Seated Shoulder Press (Machine)";
  "Set 1: 125 lbs x 4"; "Set 2: 125 lbs x 5 [Failure]";
  "Set 3: 120 lbs x 5 [Failure]";
  "";
  "Lateral Raise (Dumbbell)";
  "Set 1: 50 lbs x 8"; "Set 2: 50 lbs x 7"; "Set 3: 50 lbs x 5";
  "";
  "Triceps Extension (Dumbbell)";
  "Set 1: 55 lbs x 8"; "Set 2: 55 lbs x 8"; "Set 3: 55 lbs x 6" ]%string.

(** ** The claims' own notions *)

(** [needle] occurs in [hay]. *)
Definition has_substring (needle hay : str) : Prop :=
  exists pre post, hay = pre ++ needle ++ post.

Definition has_prefix (p s : str) : Prop := exists t, s = p ++ t.

Section Notions.
Context {U : UnicodeData}.

(** A word of the pattern occurs somewhere in the line. *)
Definition occurs (r : regex) (line : str) : Prop :=
  exists pre w post, line = pre ++ w ++ post /\ lang r w.

(** The five conditions of the exercise-name rule, as the specification
    lists them. *)
Definition exercise_name_conditions (line : str) : Prop :=
  ~ occurs guard_pattern line
  /\ ~ has_prefix (u "set ") (str_lower line)
  /\ ~ has_prefix (u "logged with") (str_lower line)
  /\ ~ has_prefix (u "rep ") (str_lower line)
  /\ (3 < length line)%nat.

(** The state after a line was taken as the exercise name. *)
Definition with_exercise (st : State) (line : str) : State := {|
  total_volume := total_volume st;
  sets_so_far := sets_so_far st;
  reps_so_far := reps_so_far st;
  exercises := exercises st;
  current_exercise := Some line
|}.

(** The pair [parse_set_line] returns on a line, for the lines on which it
    returns one. *)
Definition recognized (line : str) : option (float * Z) :=
  match parse_set_line line with
  | Returned (Some set) => Some set
  | Returned None | Raised _ => None
  end.

(** The (weight, reps) pairs of the trimmed lines of a description that
    [parse_set_line] recognizes, in order. *)
Definition recognized_sets (description : pyval) : list (float * Z) :=
  omap recognized
    (List.map strip (split_on newline (str_of description))).

(** The volume of one set, [weight * reps] in floating point. *)
Definition set_volume (set : float * Z) : float :=
  fmul (fst set) (int_as_float (snd set)).

(** The volumes summed in floating point, in the order of the lines,
    from 0.0. *)
Definition volume_sum (sets : list (float * Z)) : float :=
  fold_left (fun acc set => fadd acc (set_volume set)) sets fzero.

Definition reps_sum (sets : list (float * Z)) : Z :=
  fold_right (fun set acc => snd set + acc) 0 sets.
End Notions.

(** ** The aggregator over an object store

    The set [exercises] and the dictionary a call returns are mutable
    objects.  Here the aggregator is written over a store of such objects,
    with references as the values of the variables that hold them: [set()]
    and a dictionary display allocate a new object, [exercises.add] updates
    the set in place and [len(exercises)] reads it.  The list of lines, the
    match objects and the pairs [parse_set_line] returns are never updated
    and stay values.  The module has no global variable, so a call is given
    the store and nothing else; the cache of compiled patterns that [re]
    keeps does not change what a search returns and is left out. *)

Inductive object :=
| ObjSet (names : gset (list N))
| ObjDict (m : Metrics).

Abbreviation store := (gmap positive object) (only parsing).

(** A new object, at a reference that is not in use. *)
Definition alloc (o : object) (h : store) : positive * store :=
  let l := fresh (dom h) in (l, <[l := o]> h).

(** The set at a reference. *)
Definition set_at (h : store) (l : positive) : gset (list N) :=
  match h !! l with
  | Some (ObjSet names) => names
  | _ => ∅
  end.

(** [s.add(x)] for the set [s] at reference [l]: the object is updated in
    place. *)
Definition set_add (l : positive) (x : list N) (h : store) : store :=
  <[l := ObjSet ({[ x ]} ∪ set_at h l)]> h.

(** The local variables of the loop; [exercises] holds a reference. *)
Record Frame := {
  fr_total_volume : float;
  fr_total_sets : Z;
  fr_total_reps : Z;
  fr_exercises : positive;
  fr_current_exercise : option (list N)
}.

Section ObjectProgram.
Context {U : UnicodeData}.

(** One iteration of the loop (source lines 67 to 91). *)
Definition step_obj (fr : Frame) (raw : str) (h : store)
  : outcome Frame * store :=
  let line := strip raw in
  match line with
  | [] => (Returned fr, h)
  | _ :: _ =>
      match parse_set_line line with
      | Raised e => (Raised e, h)
      | Returned (Some (weight, reps)) =>
          match float_of_int reps with
          | Raised e => (Raised e, h)
          | Returned freps =>
              (Returned {|
                 fr_total_volume :=
                   fadd (fr_total_volume fr) (fmul weight freps);
                 fr_total_sets := fr_total_sets fr + 1;
                 fr_total_reps := fr_total_reps fr + reps;
                 fr_exercises := fr_exercises fr;
                 fr_current_exercise := fr_current_exercise fr
               |},
               match fr_current_exercise fr with
               | Some (c :: e) => set_add (fr_exercises fr) (c :: e) h
               | _ => h
               end)
          end
      | Returned None =>
          (Returned
             (if looks_like_exercise line then
                {| fr_total_volume := fr_total_volume fr;
                   fr_total_sets := fr_total_sets fr;
                   fr_total_reps := fr_total_reps fr;
                   fr_exercises := fr_exercises fr;
                   fr_current_exercise := Some line |}
              else fr),
           h)
      end
  end.

Fixpoint run_lines_obj (fr : Frame) (lines : list str) (h : store)
  : outcome Frame * store :=
  match lines with
  | [] => (Returned fr, h)
  | l :: rest =>
      match step_obj fr l h with
      | (Returned fr', h') => run_lines_obj fr' rest h'
      | (Raised e, h') => (Raised e, h')
      end
  end.

(** The aggregator: it returns a reference to a new dictionary, or
    raises. *)
Definition parse_weight_training_description_obj
    (description : pyval) (h : store) : outcome positive * store :=
  if negb (truthy description) then
    let (result, h') := alloc (ObjDict zero_metrics) h in
    (Returned result, h')
  else
    let (exercises, h0) := alloc (ObjSet ∅) h in
    let fr := {| fr_total_volume := fzero;
                 fr_total_sets := 0;
                 fr_total_reps := 0;
                 fr_exercises := exercises;
                 fr_current_exercise := None |} in
    match run_lines_obj fr (split_on newline (str_of description)) h0 with
    | (Raised e, h1) => (Raised e, h1)
    | (Returned fr', h1) =>
        let (result, h2) :=
          alloc (ObjDict {|
                   total_volume_lbs := round2 (fr_total_volume fr');
                   total_sets := fr_total_sets fr';
                   total_reps := fr_total_reps fr';
                   exercise_count :=
                     Z.of_nat (size (set_at h1 (fr_exercises fr')))
                 |}) h1 in
        (Returned result, h2)
    end.
End ObjectProgram.

(** What the caller has after a call: the object at the reference
    returned, or the exception. *)
Definition observed (r : outcome positive * store) : outcome (option object) :=
  match r.1 with
  | Returned l => Returned (r.2 !! l)
  | Raised e => Raised e
  end.

(** The values of the locals, given the contents of the set. *)
Definition state_of (fr : Frame) (names : gset (list N)) : State := {|
  total_volume := fr_total_volume fr;
  sets_so_far := fr_total_sets fr;
  reps_so_far := fr_total_reps fr;
  exercises := names;
  current_exercise := fr_current_exercise fr
|}.

Definition frame_of (st : State) (l : positive) : Frame := {|
  fr_total_volume := total_volume st;
  fr_total_sets := sets_so_far st;
  fr_total_reps := reps_so_far st;
  fr_exercises := l;
  fr_current_exercise := current_exercise st
|}.

(** The sign of a float that is not below zero: NaN, a zero, or positive. *)
Definition not_negative (x : float) : Prop :=
  match x with
  | S754_nan | S754_zero _ => True
  | S754_infinity s | S754_finite s _ _ => s = false
  end.

(** The loop invariant: the running volume is not negative and no more
    exercises were seen than sets were counted. *)
Definition state_ok (st : State) : Prop :=
  not_negative (total_volume st)
  /\ Z.of_nat (size (exercises st)) <= sets_so_far st.

(** The literal 2.20462 as a binary64 number. *)
Definition float_2_20462 : float := S754_finite false 4964362905246771 (-51).

(** The result the test suite expects for [hevy_log]: the volume is 7230.0,
    that is 7949469068820480 * 2^-40. *)
Definition hevy_metrics : Metrics := {|
  total_volume_lbs := S754_finite false 7949469068820480 (-40);
  total_sets := 12;
  total_reps := 75;
  exercise_count := 4
|}.

(** A set line with an upper-case unit, and the same line in lower case. *)
Definition upper_unit_line : str := u "80 KG x 10".
Definition lower_unit_line : str := u "80 kg x 10".

(** A line whose match has no unit token and that mentions kg elsewhere. *)
Definition kg_elsewhere_line : str := u "Bench (kg): 100 x 5".

(** A label line with surrounding blanks. *)
Definition label_line : str := u "  Bench Press ".

Definition nan_metrics : Metrics := {|
  total_volume_lbs := S754_nan;
  total_sets := 1;
  total_reps := 0;
  exercise_count := 0
|}.

(** A weight of 401 digits, which [float] takes to infinity, with no reps. *)
Definition overflowing_line : str :=
  u "1" ++ repeat 48%N 400 ++ u " x 0".

(** ** Notions for the further properties *)

Definition nonblank (l : str) : bool :=
  match l with
  | [] => false
  | _ :: _ => true
  end.

(** A character of the separator class [[xX×]]. *)
Definition is_separator (x : char) : bool :=
  existsb (N.eqb x) [120%N; 88%N; times_sign].

(** A float that is at least 0: a zero, a positive number or plus
    infinity. *)
Definition at_least_zero (x : float) : Prop :=
  match x with
  | S754_zero _ => True
  | S754_infinity s | S754_finite s _ _ => s = false
  | S754_nan => False
  end.

(** The current exercise as a set of at most one name. *)
Definition cur_set (cur : option (list N)) : gset (list N) :=
  match cur with
  | Some e => {[ e ]}
  | None => ∅
  end.

(** The string is empty or its first character fails [p]. *)
Definition head_fails (p : char -> bool) (s : str) : Prop :=
  match s with
  | [] => True
  | c :: _ => p c = false
  end.

(** A zero, or a finite number: below [2^b] in absolute value, with its
    exponent at most [e]. *)
Definition bounded_float (b e : Z) (x : float) : Prop :=
  match x with
  | S754_zero _ => True
  | S754_finite _ m ex => Zdigits2 (Z.pos m) + ex <= b /\ ex <= e
  | S754_infinity _ | S754_nan => False
  end.

(** The unit tokens of the set pattern. *)
Definition unit_words : list str :=
  [u "lbs"; u "lb"; u "pounds"; u "pound"; u "kg"; u "kilograms";
   u "kilogram"].

(** Literal characters of the set pattern: the full stop, the first letters
    of the unit tokens, the plural s and the three separators. *)
Definition pattern_literals : str := u ".lpksxX" ++ [times_sign].

Section FurtherNotions.
Context {U : UnicodeData}.

(** What holds of the Unicode database: the value of a decimal digit is at
    most 9. *)
Definition digit_values_decimal : Prop :=
  forall c, isdecimal c = true -> (decimal_value c <= 9)%N.

(** Every line of the description has fewer than 300 characters. *)
Definition short_lines (description : pyval) : bool :=
  forallb (fun l => (length l <? 300)%nat)
    (split_on newline (str_of description)).

(** What the exact-result properties need of the tables, and what holds of
    the Unicode database: a decimal digit is not white space, and the
    literal characters of the pattern are neither. *)
Definition tables_separate : Prop :=
  (forall c, isdecimal c = true -> isspace c = false)
  /\ forallb (fun c => negb (isdecimal c) && negb (isspace c))
       pattern_literals = true.

(** The trimmed lines of a description that are not blank, in order. *)
Definition trimmed_lines (description : pyval) : list str :=
  List.filter nonblank
    (List.map strip (split_on newline (str_of description))).

(** A trimmed line the loop takes as the current exercise: not a set, and
    passing the test of source lines 87 to 91. *)
Definition is_label (line : str) : bool :=
  match parse_set_line line with
  | Returned None => looks_like_exercise line
  | Returned (Some _) | Raised _ => false
  end.

Definition label_lines (description : pyval) : list str :=
  List.filter is_label
    (List.map strip (split_on newline (str_of description))).

(** The rep count of a set converts to a float. *)
Definition reps_fit (set : float * Z) : bool :=
  negb (is_infinite (int_as_float (snd set))).

Definition weight_finite (set : float * Z) : bool :=
  negb (is_infinite (fst set)).

(** The exception a line stands for, read off its text: ValueError when the
    rep count found by the set pattern has more than 4300 digits,
    OverflowError when it has no more and its value is too large for a
    float, none when the rep count converts or no set is found. *)
Definition line_error (line : str) : option exn :=
  match re_search set_pattern line with
  | None => None
  | Some m =>
      if 4300 <? Z.of_nat (length (group m 2)) then Some ValueError
      else if is_infinite (int_as_float (Z.of_N (digits_value (group m 2))))
      then Some OverflowError
      else None
  end.

(** The exceptions of the trimmed lines of a description, in order. *)
Definition line_errors (description : pyval) : list exn :=
  omap line_error
    (List.map strip (split_on newline (str_of description))).
End FurtherNotions.

(** Inputs on which the further properties are run. *)
Definition hevy_description : pyval := PyStr hevy_log.
Definition plain_set_line : str := u "175 lbs x 7".
Definition kg_set_line : str := u "Set 1: 80 kg x 10".
Definition decimal_set_line : str := u "62.5 x 8".

Definition untidy_text : str :=
  unlines ["  Bench Press  "; ""; "   100 x 5 "; "  "]%string.
Definition tidy_text : str := unlines ["Bench Press"; "100 x 5"]%string.
Definition second_text : str :=
  unlines ["Squat"; "200 x 3"; "200 x 2"]%string.

Definition joined_metrics : Metrics := {|
  total_volume_lbs := S754_finite false 6597069766656000 (-42);
  total_sets := 3;
  total_reps := 10;
  exercise_count := 2
|}.

Definition label_prefix : str := u "Bench press: ".
Definition bare_set_line : str := u "100 x 5".
Definition blank_text : str := unlines ["   "; ""; "  "]%string.

Definition named_activity : gmap (list N) pyval :=
  {[ u "description" := PyStr tidy_text ]}.

(** A regular expression without capturing groups. *)
Fixpoint groupfree (r : regex) : bool :=
  match r with
  | REps | RChar _ | RStar _ | RPlus _ => true
  | RSeq r1 r2 | RAlt r1 r2 => groupfree r1 && groupfree r2
  | ROpt r1 => groupfree r1
  | RGroup _ _ => false
  end.

(** * Properties of the matcher *)

Lemma orelse_Some {A} (x y : option A) (a : A) :
  orelse x y = Some a -> x = Some a \/ y = Some a.
Proof. destruct x; simpl; auto. Qed.

Lemma orelse_is_Some_l {A} (x y : option A) :
  is_Some x -> is_Some (orelse x y).
Proof. intros [a ->]. simpl. eauto. Qed.

Lemma orelse_is_Some_r {A} (x y : option A) :
  is_Some y -> is_Some (orelse x y).
Proof. destruct x; simpl; eauto. Qed.

Section MatcherFacts.
Context {U : UnicodeData}.

Lemma star_match_sound {A} p (k : str -> option A) s a :
  star_match p k s = Some a ->
  exists w s', s = w ++ s' /\ forallb p w = true /\ k s' = Some a.
Proof.
  induction s as [|c s IH]; simpl; intros H.
  - exists [], []. auto.
  - destruct (p c) eqn:Hc.
    + apply orelse_Some in H as [H|H].
      * destruct (IH H) as (w & s' & -> & Hw & Hk).
        exists (c :: w), s'. simpl. rewrite Hc, Hw. auto.
      * exists [], (c :: s). auto.
    + exists [], (c :: s). auto.
Qed.

Lemma star_match_here {A} p (k : str -> option A) s :
  is_Some (k s) -> is_Some (star_match p k s).
Proof.
  destruct s as [|c s]; simpl; auto.
  destruct (p c); auto using orelse_is_Some_r.
Qed.

Lemma star_match_complete {A} p (k : str -> option A) w s' :
  forallb p w = true -> is_Some (k s') ->
  is_Some (star_match p k (w ++ s')).
Proof.
  induction w as [|c w IH]; simpl; intros Hw Hk.
  - by apply star_match_here.
  - apply andb_prop in Hw as [-> Hw].
    apply orelse_is_Some_l. auto.
Qed.

Lemma rmatch_seq r1 r2 s g k :
  rmatch (RSeq r1 r2) s g k
  = rmatch r1 s g (fun s1 g1 => rmatch r2 s1 g1 k).
Proof. reflexivity. Qed.

Lemma rmatch_group n r s g k :
  rmatch (RGroup n r) s g k
  = rmatch r s g
      (fun s1 g1 => k s1 (<[n := take (length s - length s1)%nat s]> g1)).
Proof. reflexivity. Qed.

(** Soundness: a successful match consumed a word of the language and the
    continuation succeeded on the rest; without groups the captures reach
    the continuation unchanged. *)
Lemma rmatch_sound r : forall s g k gf,
  groupfree r = true ->
  rmatch r s g k = Some gf ->
  exists w s', s = w ++ s' /\ lang r w /\ k s' g = Some gf.
Proof.
  induction r as [|c|c|c|r1 IH1 r2 IH2|r1 IH1 r2 IH2|r1 IH1|n r1 IH1];
    simpl; intros s g k gf Hgf H.
  - exists [], s. auto.
  - destruct s as [|x s]; [done|].
    destruct (in_class c x) eqn:Hx; [|done].
    exists [x], s. eauto.
  - apply star_match_sound in H as (w & s' & -> & Hw & Hk). eauto.
  - destruct s as [|x s]; [done|].
    destruct (in_class c x) eqn:Hx; [|done].
    apply star_match_sound in H as (w & s' & -> & Hw & Hk).
    exists (x :: w), s'. simpl. rewrite Hx, Hw. auto.
  - apply andb_prop in Hgf as [G1 G2].
    apply IH1 in H as (w1 & s1 & -> & L1 & H); [|done].
    apply IH2 in H as (w2 & s2 & -> & L2 & H); [|done].
    exists (w1 ++ w2), s2. rewrite <- app_assoc. eauto 10.
  - apply andb_prop in Hgf as [G1 G2].
    apply orelse_Some in H as [H|H].
    + apply IH1 in H as (w & s' & -> & L & H); eauto 10.
    + apply IH2 in H as (w & s' & -> & L & H); eauto 10.
  - apply orelse_Some in H as [H|H].
    + apply IH1 in H as (w & s' & -> & L & H); eauto 10.
    + exists [], s. auto.
  - done.
Qed.

(** Completeness: if a word of the language is a prefix of the input and
    the continuation accepts the rest whatever the captures, the match
    succeeds. *)
Lemma rmatch_complete r : forall w s' g k,
  lang r w ->
  (forall g', is_Some (k s' g')) ->
  is_Some (rmatch r (w ++ s') g k).
Proof.
  induction r as [|c|c|c|r1 IH1 r2 IH2|r1 IH1 r2 IH2|r1 IH1|n r1 IH1];
    simpl; intros w s' g k L Hk.
  - subst w. apply Hk.
  - destruct L as (x & -> & Hx). simpl. rewrite Hx. apply Hk.
  - by apply star_match_complete.
  - destruct L as [Hne Hw]. destruct w as [|x w]; [done|].
    simpl in *. apply andb_prop in Hw as [-> Hw].
    by apply star_match_complete.
  - destruct L as (w1 & w2 & -> & L1 & L2). rewrite <- app_assoc.
    apply IH1; [done|]. intros g'. by apply IH2.
  - destruct L as [L|L]; [apply orelse_is_Some_l|apply orelse_is_Some_r];
      auto.
  - destruct L as [->|L]; [apply orelse_is_Some_r|apply orelse_is_Some_l];
      auto.
  - apply IH1; [done|]. intros g'. apply Hk.
Qed.

Lemma re_search_eq r s :
  re_search r s
  = match rmatch r s ∅ (fun _ g => Some g) with
    | Some g => Some g
    | None => match s with [] => None | _ :: s' => re_search r s' end
    end.
Proof. destruct s; reflexivity. Qed.

Lemma re_search_complete r pre w post :
  lang r w -> is_Some (re_search r (pre ++ w ++ post)).
Proof.
  intros L. induction pre as [|c pre IH]; simpl.
  - destruct (rmatch_complete r w post ∅ (fun _ g => Some g) L) as [g Hg];
      [eauto|].
    destruct (w ++ post); simpl in *; rewrite Hg; eauto.
  - destruct (rmatch r (c :: pre ++ w ++ post) ∅ _); eauto.
Qed.

Lemma re_search_sound r s g :
  groupfree r = true ->
  re_search r s = Some g ->
  exists pre w post, s = pre ++ w ++ post /\ lang r w.
Proof.
  intros G. induction s as [|c s IH]; simpl.
  - destruct (rmatch r [] ∅ _) eqn:E; [|done]. intros _.
    apply rmatch_sound in E as (w & s' & Hs & L & _); [|done].
    exists [], w, s'. auto.
  - destruct (rmatch r (c :: s) ∅ _) eqn:E.
    + intros _. apply rmatch_sound in E as (w & s' & Hs & L & _); [|done].
      exists [], w, s'. auto.
    + intros H. destruct (IH H) as (pre & w & post & -> & L).
      exists (c :: pre), w, post. auto.
Qed.

(** Every word of the guard pattern is a word of the set pattern: the text
    before the separator is a number without fraction and without unit. *)
Lemma guard_in_set_pattern w : lang guard_pattern w -> lang set_pattern w.
Proof.
  intros (d1 & t1 & -> & Hd1 & ws1 & t2 & -> & Hws1 & x & t3 & -> & Hx
          & ws2 & d2 & -> & Hws2 & Hd2).
  exists d1, (ws1 ++ x ++ ws2 ++ d2). split; [done|]. split.
  { exists d1, []. rewrite app_nil_r. simpl. auto. }
  exists ws1, (x ++ ws2 ++ d2). split; [done|]. split; [done|].
  exists [], (x ++ ws2 ++ d2). split; [done|]. split; [by left|].
  exists [], (x ++ ws2 ++ d2). split; [done|]. split; [done|].
  exists x, (ws2 ++ d2). split; [done|]. split; [done|].
  exists ws2, d2. auto.
Qed.

(** The groups of a match of the set pattern: both took part, group 1 is
    a number and group 2 a run of digits. *)
Lemma set_pattern_groups s m :
  re_search set_pattern s = Some m ->
  exists w1 w2,
    m = <[2%nat := w2]> (<[1%nat := w1]> ∅)
    /\ lang number w1 /\ lang (RPlus CDigit) w2.
Proof.
  assert (Hat : forall s m,
    rmatch set_pattern s ∅ (fun _ g => Some g) = Some m ->
    exists w1 w2, m = <[2%nat := w2]> (<[1%nat := w1]> ∅)
      /\ lang number w1 /\ lang (RPlus CDigit) w2).
  { clear s m. intros s m H. unfold set_pattern in H.
    rewrite rmatch_seq, rmatch_group in H.
    apply rmatch_sound in H as (w1 & s1 & -> & L1 & H); [|done].
    rewrite length_app, Nat.add_sub, take_app_length in H.
    do 5 (rewrite rmatch_seq in H;
          apply rmatch_sound in H as (? & ? & -> & _ & H); [|done]).
    rewrite rmatch_group in H.
    apply rmatch_sound in H as (w2 & s7 & -> & L2 & H); [|done].
    rewrite length_app, Nat.add_sub, take_app_length in H.
    exists w1, w2. split; [congruence|done]. }
  induction s as [|c s IH]; rewrite re_search_eq;
    destruct (rmatch set_pattern _ ∅ _) eqn:E; try done;
    intros [= <-]; eauto.
Qed.
End MatcherFacts.

(** * Substrings and prefixes *)

Lemma starts_with_spec p s : starts_with p s = true <-> has_prefix p s.
Proof.
  revert s. induction p as [|a p IH]; intros s; simpl.
  - split; [intros _; by exists s|done].
  - destruct s as [|b s].
    + split; [done|]. intros [t Ht]. discriminate.
    + rewrite andb_true_iff, N.eqb_eq, IH. split.
      * intros [-> [t ->]]. by exists t.
      * intros [t [= -> ->]]. split; [done|]. by exists t.
Qed.

Lemma starts_with_false p s : starts_with p s = false <-> ~ has_prefix p s.
Proof. rewrite <- starts_with_spec. by destruct (starts_with p s). Qed.

Lemma contains_spec needle hay :
  contains needle hay = true <-> has_substring needle hay.
Proof.
  induction hay as [|c hay IH]; simpl.
  - rewrite orb_false_r, starts_with_spec. split.
    + intros [t Ht]. by exists [], t.
    + intros (pre & post & H). destruct pre; [by exists post|done].
  - rewrite orb_true_iff, IH, starts_with_spec. split.
    + intros [[t Ht]|(pre & post & ->)].
      * by exists [], t.
      * by exists (c :: pre), post.
    + intros (pre & post & H). destruct pre as [|x pre].
      * left. by exists post.
      * right. injection H as -> ->. by exists pre, post.
Qed.

(** * Signs of the floating-point operations *)

Lemma binary_round_aux_sign mx ex lx :
  not_negative (binary_round_aux prec emax false mx ex lx).
Proof.
  unfold binary_round_aux.
  destruct (shr_fexp _ _ mx ex lx) as [mrs' e'].
  destruct (shr_fexp _ _ _ e' loc_Exact) as [mrs'' e''].
  destruct (shr_m mrs''); [done| |done].
  by destruct (e'' <=? emax - prec).
Qed.

Lemma round_binary64_sign m e : not_negative (round_binary64 m e).
Proof.
  unfold round_binary64, binary_normalize, binary_round.
  destruct (Z.of_N m) eqn:E; [done| |lia].
  destruct (shl_align _ _ _). apply binary_round_aux_sign.
Qed.

Lemma int_as_float_sign n : 0 <= n -> not_negative (int_as_float n).
Proof.
  intros Hn. unfold int_as_float, binary_normalize, binary_round.
  destruct n; [done| |lia].
  destruct (shl_align _ _ _). apply binary_round_aux_sign.
Qed.

Lemma float_of_ratio_sign p q : not_negative (float_of_ratio p q).
Proof. apply round_binary64_sign. Qed.

Lemma fmul_sign x y : not_negative x -> not_negative y -> not_negative (fmul x y).
Proof.
  destruct x as [sx|sx| |sx mx ex], y as [sy|sy| |sy my ey]; simpl;
    try done; try (by intros -> ->); try (by intros _ ->); try (by intros ->).
  intros -> ->. apply binary_round_aux_sign.
Qed.

Lemma fadd_sign x y : not_negative x -> not_negative y -> not_negative (fadd x y).
Proof.
  destruct x as [sx|sx| |sx mx ex], y as [sy|sy| |sy my ey]; simpl;
    try done; try (by intros -> ->); try (by intros _ ->); try (by intros ->).
  - by destruct sx, sy.
  - intros -> ->. unfold binary_normalize. simpl.
    unfold binary_round. destruct (shl_align _ _ _).
    apply binary_round_aux_sign.
Qed.

Lemma round2_sign x : not_negative x -> not_negative (round2 x).
Proof.
  destruct x as [sx|sx| |sx mx ex]; simpl; try done.
  intros ->. apply float_of_ratio_sign.
Qed.

Lemma not_negative_fle x : not_negative x -> is_nan x = true \/ fle fzero x = true.
Proof.
  destruct x as [sx|sx| |sx mx ex]; simpl; auto; intros ->; by right.
Qed.

(** * The set line parser *)

Section ParserFacts.
Context {U : UnicodeData}.

Lemma py_int_returned s r :
  py_int s = Returned r
  <-> Z.of_nat (length s) <= int_max_str_digits
      /\ r = Z.of_N (digits_value s).
Proof.
  unfold py_int. destruct (int_max_str_digits <? Z.of_nat (length s)) eqn:E.
  - apply Z.ltb_lt in E. split; [done|lia].
  - apply Z.ltb_ge in E. split.
    + intros [= <-]. split; [lia|done].
    + by intros [_ ->].
Qed.

(** What [parse_set_line] returns when it returns a pair. *)
Lemma parse_set_line_returned line w r :
  parse_set_line line = Returned (Some (w, r))
  <-> exists m,
        re_search set_pattern line = Some m
        /\ py_int (group m 2) = Returned r
        /\ w = (if mentions_kg line
                then fmul (py_float (group m 1)) kg_to_lbs
                else py_float (group m 1)).
Proof.
  unfold parse_set_line. destruct (re_search set_pattern line) as [m|].
  - destruct (py_int (group m 2)) as [r'|e] eqn:E; simpl; split.
    + intros [= <- <-]. eauto.
    + intros (? & [= <-] & Hr & ->). rewrite E in Hr. by injection Hr as ->.
    + done.
    + intros (? & [= <-] & Hr & _). by rewrite E in Hr.
  - split; [done|]. by intros (? & ? & _).
Qed.

Lemma parse_set_line_None line :
  parse_set_line line = Returned None <-> re_search set_pattern line = None.
Proof.
  unfold parse_set_line. destruct (re_search set_pattern line) as [m|];
    [|done].
  by destruct (py_int (group m 2)).
Qed.

Lemma parse_set_line_blank : parse_set_line [] = Returned None.
Proof. reflexivity. Qed.

Lemma kg_to_lbs_literal : kg_to_lbs = float_2_20462.
Proof. vm_compute. reflexivity. Qed.

Lemma mentions_kg_spec line :
  mentions_kg line = true
  <-> has_substring (u "kg") (str_lower line)
      \/ has_substring (u "kilogram") (str_lower line).
Proof.
  unfold mentions_kg. by rewrite orb_true_iff, !contains_spec.
Qed.

(** [re.search] finds a match exactly when a word of the pattern occurs
    in the line. *)
Lemma re_search_occurs r line :
  groupfree r = true ->
  is_Some (re_search r line) <-> occurs r line.
Proof.
  intros G. split.
  - intros [g Hg]. by eapply re_search_sound.
  - intros (pre & w & post & -> & L). by apply re_search_complete.
Qed.

Lemma parse_set_line_weight_sign line w r :
  parse_set_line line = Returned (Some (w, r)) -> not_negative w /\ 0 <= r.
Proof.
  intros H. apply parse_set_line_returned in H as (m & _ & Hr & ->).
  apply py_int_returned in Hr as [_ ->]. split; [|apply N2Z.is_nonneg].
  destruct (mentions_kg line).
  - apply fmul_sign; apply float_of_ratio_sign.
  - apply float_of_ratio_sign.
Qed.

(** C1. Whenever [parse_set_line] succeeds, the weight it returns is the
    matched number (group 1 as a float) multiplied by 2.20462 (the float
    4964362905246771 * 2^-51) when the lower-cased full line contains "kg"
    or "kilogram" anywhere, and the matched number unchanged when it
    contains neither; the reps are group 2 as an integer. *)
Theorem C1_kg_conversion_scans_the_whole_line line w r :
  parse_set_line line = Returned (Some (w, r)) ->
  exists m,
    re_search set_pattern line = Some m
    /\ py_int (group m 2) = Returned r
    /\ (has_substring (u "kg") (str_lower line)
        \/ has_substring (u "kilogram") (str_lower line) ->
        w = fmul (py_float (group m 1))
              (S754_finite false 4964362905246771 (-51)))
    /\ (~ (has_substring (u "kg") (str_lower line)
           \/ has_substring (u "kilogram") (str_lower line)) ->
        w = py_float (group m 1)).
Proof.
  intros H. apply parse_set_line_returned in H as (m & Hm & Hr & ->).
  exists m. split; [done|]. split; [done|].
  rewrite <- mentions_kg_spec, kg_to_lbs_literal. unfold float_2_20462.
  destruct (mentions_kg line); split; intros H; congruence.
Qed.

(** C9. On every line for which [parse_set_line] returns [None], the guard
    pattern of the aggregator finds no match either: a word of the guard
    pattern is a word of the set pattern, so the first exclusion condition
    never rejects a line in the failure branch. *)
Theorem C9_guard_pattern_is_redundant line :
  parse_set_line line = Returned None ->
  re_search guard_pattern line = None /\ ~ occurs guard_pattern line.
Proof.
  rewrite parse_set_line_None. intros Hnone.
  assert (Hno : ~ occurs guard_pattern line).
  { intros (pre & w & post & -> & L).
    apply guard_in_set_pattern in L.
    destruct (re_search_complete set_pattern pre w post L) as [g Hg].
    congruence. }
  split; [|done].
  destruct (re_search guard_pattern line) eqn:E; [|done].
  destruct Hno. apply re_search_occurs; eauto.
Qed.

(** The conversions of the two groups are applied to text of the shape
    they accept: group 1 is a number, group 2 a run of digits. *)
Lemma parse_set_line_groups line m :
  re_search set_pattern line = Some m ->
  lang number (group m 1) /\ lang (RPlus CDigit) (group m 2).
Proof.
  intros H. apply set_pattern_groups in H as (w1 & w2 & -> & L1 & L2).
  unfold group. rewrite lookup_insert_ne, !lookup_insert_eq by done. done.
Qed.
End ParserFacts.

(** * The description aggregator *)

Lemma omap_cons {A B} (f : A -> option B) (x : A) (l : list A) :
  omap f (x :: l)
  = match f x with
    | Some y => y :: omap f l
    | None => omap f l
    end.
Proof. reflexivity. Qed.

Lemma fold_left_cons {A B} (f : A -> B -> A) (x : B) (l : list B) (a : A) :
  fold_left f (x :: l) a = fold_left f l (f a x).
Proof. reflexivity. Qed.

Lemma foldr_cons {A B} (f : B -> A -> A) (x : B) (l : list B) (a : A) :
  foldr f a (x :: l) = f x (foldr f a l).
Proof. reflexivity. Qed.

Section AggregatorFacts.
Context {U : UnicodeData}.

Lemma looks_like_exercise_spec line :
  looks_like_exercise line = true <-> exercise_name_conditions line.
Proof.
  unfold looks_like_exercise, exercise_name_conditions.
  rewrite !andb_true_iff, !negb_true_iff, !starts_with_false.
  rewrite bool_decide_eq_false, re_search_occurs by done.
  rewrite Z.ltb_lt. intuition lia.
Qed.

(** What one iteration does to the state, by the outcome of the parser on
    the trimmed line. *)
Lemma recognized_Some line set :
  recognized line = Some set <-> parse_set_line line = Returned (Some set).
Proof.
  unfold recognized. destruct (parse_set_line line) as [[set'|]|e];
    split; try done; by intros [= <-].
Qed.

Lemma step_cases st raw st' :
  step st raw = Returned st' ->
  match recognized (strip raw) with
  | Some (w, r) =>
      st' = {| total_volume := fadd (total_volume st) (set_volume (w, r));
               sets_so_far := sets_so_far st + 1;
               reps_so_far := reps_so_far st + r;
               exercises := add_current (current_exercise st) (exercises st);
               current_exercise := current_exercise st |}
  | None => st' = st \/ st' = with_exercise st (strip raw)
  end.
Proof.
  unfold step, recognized. destruct (strip raw) as [|c l] eqn:E.
  - rewrite parse_set_line_blank. intros [= <-]. by left.
  - destruct (parse_set_line (c :: l)) as [[[w r]|]|e]; simpl; [| |done].
    + unfold float_of_int, set_volume. simpl.
      destruct (is_infinite _); simpl; [done|]. by intros [= <-].
    + destruct (looks_like_exercise (c :: l)); intros [= <-]; auto.
Qed.

Lemma add_current_size (cur : option (list N)) (seen : gset (list N)) :
  (size (add_current cur seen) <= S (size seen))%nat.
Proof.
  destruct cur as [[|c e]|]; simpl; try lia.
  rewrite size_union_alt, size_singleton.
  assert (size (seen ∖ {[c :: e]}) <= size seen)%nat as Hle; [|lia].
  by apply subseteq_size, subseteq_difference_l.
Qed.

Lemma step_ok st raw st' : state_ok st -> step st raw = Returned st' -> state_ok st'.
Proof.
  intros [Hv Hs] H. apply step_cases in H.
  destruct (recognized (strip raw)) as [[w r]|] eqn:E.
  - subst st'. apply recognized_Some, parse_set_line_weight_sign in E
      as [Hw Hr].
    split; simpl.
    + apply fadd_sign; [done|]. apply fmul_sign; [done|].
      by apply int_as_float_sign.
    + pose proof (add_current_size (current_exercise st) (exercises st)).
      lia.
  - by destruct H as [->| ->].
Qed.

Lemma run_lines_ok lines : forall st st',
  state_ok st -> run_lines st lines = Returned st' -> state_ok st'.
Proof.
  induction lines as [|l lines IH]; simpl; intros st st' Hok H.
  - by injection H as <-.
  - destruct (step st l) as [st1|] eqn:E; [|done].
    eauto using step_ok.
Qed.

(** The loop accumulates exactly the recognized lines, in order. *)
Lemma run_lines_totals lines : forall st st',
  run_lines st lines = Returned st' ->
  total_volume st'
  = fold_left (fun acc set => fadd acc (set_volume set))
      (omap recognized (List.map strip lines)) (total_volume st)
  /\ sets_so_far st'
     = sets_so_far st
       + Z.of_nat (length (omap recognized (List.map strip lines)))
  /\ reps_so_far st'
     = reps_so_far st
       + reps_sum (omap recognized (List.map strip lines)).
Proof.
  induction lines as [|l lines IH]; intros st st' H.
  - injection H as <-. unfold reps_sum. simpl. repeat split; lia.
  - simpl in H. destruct (step st l) as [st1|] eqn:E; [|done]. simpl in H.
    apply IH in H as (Hv & Hs & Hr). apply step_cases in E.
    rewrite map_cons, omap_cons.
    destruct (recognized (strip l)) as [[w r]|].
    + subst st1. rewrite Hv, Hs, Hr. unfold reps_sum.
      rewrite length_cons, foldr_cons, fold_left_cons. simpl.
      repeat split; lia.
    + by destruct E as [->| ->].
Qed.

Lemma init_state_ok : state_ok init_state.
Proof.
  split; [done|]. unfold init_state. cbn [exercises sets_so_far].
  by rewrite size_empty.
Qed.

Lemma parse_description_cases description m :
  parse_weight_training_description description = Returned m ->
  (truthy description = false /\ m = zero_metrics)
  \/ exists st,
       run_lines init_state (split_on newline (str_of description))
       = Returned st
       /\ m = finish st.
Proof.
  unfold parse_weight_training_description.
  destruct (truthy description); simpl.
  - destruct (run_lines _ _) as [st|]; simpl; [|done].
    intros [= <-]. eauto.
  - intros [= <-]. auto.
Qed.

Lemma recognized_sets_falsy description :
  truthy description = false -> recognized_sets description = [].
Proof. by destruct description as [|[|c s]]. Qed.

(** C3. In the aggregator, a trimmed non-empty line on which
    [parse_set_line] fails leaves the volume, the set and rep counts and
    the seen exercises as they were; it becomes the current exercise name
    when all five conditions hold (no digits-separator-digits pattern in
    it, its lower-casing starts with none of "set ", "logged with",
    "rep ", and it has more than 3 characters), and the current exercise
    name stays as it was when one of them fails. *)
Theorem C3_exercise_name_rule st raw :
  strip raw <> [] ->
  parse_set_line (strip raw) = Returned None ->
  exists st',
    step st raw = Returned st'
    /\ total_volume st' = total_volume st
    /\ sets_so_far st' = sets_so_far st
    /\ reps_so_far st' = reps_so_far st
    /\ exercises st' = exercises st
    /\ (exercise_name_conditions (strip raw) ->
        current_exercise st' = Some (strip raw))
    /\ (~ exercise_name_conditions (strip raw) ->
        current_exercise st' = current_exercise st).
Proof.
  intros Hne Hnone.
  pose proof (looks_like_exercise_spec (strip raw)) as Hspec.
  unfold step. destruct (strip raw) as [|c l]; [done|].
  rewrite Hnone. destruct (looks_like_exercise (c :: l)).
  - eexists. split; [done|]. simpl. repeat split; try done.
    intros Hn. destruct Hn. by apply Hspec.
  - eexists. split; [done|]. repeat split; try done.
    intros Hc. by apply Hspec in Hc.
Qed.

(** C4, in the form that holds of the code.  Whenever the aggregator
    returns, total_volume_lbs is the
    floating-point sum, in line order from 0.0, of weight * reps over
    exactly the trimmed lines that [parse_set_line] recognizes, rounded to
    2 decimal places; total_sets is the number of those lines and
    total_reps the sum of their rep counts; and total_volume_lbs is never
    negative: it is NaN or at least 0. *)
Theorem C4_totals_over_recognized_lines description m :
  parse_weight_training_description description = Returned m ->
  total_volume_lbs m = round2 (volume_sum (recognized_sets description))
  /\ total_sets m = Z.of_nat (length (recognized_sets description))
  /\ total_reps m = reps_sum (recognized_sets description)
  /\ (is_nan (total_volume_lbs m) = true
      \/ fle fzero (total_volume_lbs m) = true).
Proof.
  intros H. apply parse_description_cases in H as [[Hf ->]|(st & Hrun & ->)].
  - rewrite (recognized_sets_falsy _ Hf). simpl. auto.
  - pose proof (run_lines_ok _ _ _ init_state_ok Hrun) as [Hv _].
    apply run_lines_totals in Hrun as (Ev & Es & Er).
    unfold recognized_sets, volume_sum. simpl in *.
    rewrite Ev, Es, Er. repeat split.
    apply not_negative_fle, round2_sign. by rewrite <- Ev.
Qed.

(** C5. For an absent ([None]) or empty description the aggregator returns
    the result with all four fields zero, 0.0 for the volume; the loop over
    the lines is not entered. *)
Theorem C5_zero_input :
  parse_weight_training_description PyNone
  = Returned {| total_volume_lbs := S754_zero false; total_sets := 0;
                total_reps := 0; exercise_count := 0 |}
  /\ parse_weight_training_description (PyStr [])
     = Returned {| total_volume_lbs := S754_zero false; total_sets := 0;
                   total_reps := 0; exercise_count := 0 |}.
Proof. split; reflexivity. Qed.

Lemma frame_of_state_of fr names :
  frame_of (state_of fr names) (fr_exercises fr) = fr.
Proof. by destruct fr. Qed.

Lemma state_of_frame_of st l : state_of (frame_of st l) (exercises st) = st.
Proof. by destruct st. Qed.

(** An iteration over the store does to the locals what [step] does, and to
    the store nothing but the update of the set [exercises] refers to. *)
Lemma step_obj_sim fr raw (h : store) names :
  h !! fr_exercises fr = Some (ObjSet names) ->
  step_obj fr raw h
  = match step (state_of fr names) raw with
    | Returned st' =>
        (Returned (frame_of st' (fr_exercises fr)),
         <[fr_exercises fr := ObjSet (exercises st')]> h)
    | Raised e => (Raised e, h)
    end.
Proof.
  intros Hex. unfold step_obj, step. destruct (strip raw) as [|c l].
  - by rewrite frame_of_state_of, insert_id.
  - destruct (parse_set_line (c :: l)) as [[[w r]|]|e]; simpl; [| |done].
    + unfold float_of_int. destruct (is_infinite _); simpl; [done|].
      unfold frame_of, set_add, set_at. simpl. rewrite Hex.
      destruct (fr_current_exercise fr) as [[|x e]|]; simpl;
        by rewrite ?(insert_id _ _ _ Hex).
    + destruct (looks_like_exercise (c :: l)); simpl;
        by rewrite ?frame_of_state_of, (insert_id _ _ _ Hex).
Qed.

Lemma run_lines_obj_sim lines : forall fr (h : store) names,
  h !! fr_exercises fr = Some (ObjSet names) ->
  exists names',
    run_lines_obj fr lines h
    = (match run_lines (state_of fr names) lines with
       | Returned st' => Returned (frame_of st' (fr_exercises fr))
       | Raised e => Raised e
       end,
       <[fr_exercises fr := ObjSet names']> h)
    /\ forall st',
         run_lines (state_of fr names) lines = Returned st' ->
         names' = exercises st'.
Proof.
  induction lines as [|l lines IH]; intros fr h names Hex.
  - exists names. simpl. rewrite frame_of_state_of, insert_id by done.
    split; [done|]. by intros st' [= <-].
  - simpl. rewrite (step_obj_sim _ _ _ _ Hex).
    destruct (step (state_of fr names) l) as [st1|e]; simpl.
    + destruct (IH (frame_of st1 (fr_exercises fr))
                  (<[fr_exercises fr := ObjSet (exercises st1)]> h)
                  (exercises st1)) as (names' & Hrun & Hn).
      { simpl. by rewrite lookup_insert_eq. }
      rewrite state_of_frame_of in Hrun, Hn. simpl in Hrun.
      exists names'. rewrite Hrun, insert_insert_eq. done.
    + exists names. rewrite insert_id by done. done.
Qed.

Lemma fresh_lookup (h : store) : h !! fresh (dom h) = None.
Proof. apply not_elem_of_dom, is_fresh. Qed.

(** A call changes no object of the store it is given and returns a new
    dictionary that holds the result of the aggregator as a function of the
    description. *)
Lemma parse_obj_sim description (h : store) :
  exists l (h1 : store),
    h ⊆ h1 /\ h1 !! l = None
    /\ parse_weight_training_description_obj description h
       = match parse_weight_training_description description with
         | Returned m => (Returned l, <[l := ObjDict m]> h1)
         | Raised e => (Raised e, h1)
         end.
Proof.
  unfold parse_weight_training_description_obj,
    parse_weight_training_description, alloc.
  destruct (truthy description); simpl.
  - set (ex := fresh (dom h)).
    set (fr := {| fr_total_volume := fzero; fr_total_sets := 0;
                  fr_total_reps := 0; fr_exercises := ex;
                  fr_current_exercise := None |}).
    destruct (run_lines_obj_sim (split_on newline (str_of description)) fr
                (<[ex := ObjSet ∅]> h) ∅) as (names' & Hrun & Hn).
    { simpl. by rewrite lookup_insert_eq. }
    change (state_of fr ∅) with init_state in Hrun, Hn.
    simpl in Hrun. rewrite insert_insert_eq in Hrun. rewrite Hrun.
    set (h1 := <[ex := ObjSet names']> h).
    exists (fresh (dom h1)), h1.
    split; [apply insert_subseteq, fresh_lookup|].
    split; [apply fresh_lookup|].
    destruct (run_lines init_state _) as [st'|e]; simpl; [|done].
    unfold set_at, h1. rewrite lookup_insert_eq, (Hn st' eq_refl). done.
  - exists (fresh (dom h)), h. split; [done|]. split; [apply fresh_lookup|done].
Qed.

Lemma observed_call description (h : store) :
  observed (parse_weight_training_description_obj description h)
  = match parse_weight_training_description description with
    | Returned m => Returned (Some (ObjDict m))
    | Raised e => Raised e
    end.
Proof.
  destruct (parse_obj_sim description h) as (l & h1 & _ & _ & ->).
  destruct (parse_weight_training_description description); [|done].
  unfold observed. simpl. by rewrite lookup_insert_eq.
Qed.

(** C7. The aggregator carries no state between calls.  Run on any two
    stores of objects (whatever calls came before, whatever was done to
    their results), a call on the same description gives the caller the
    same thing: a dictionary with the same contents, or the same exception;
    so does a second call that follows the first.  What the caller is
    given is the result of the aggregator as a function of the description
    alone.  A call changes no object that was in the store before it, and
    the dictionary it returns is a new object, not one that was there
    before. *)
Theorem C7_calls_are_independent description (h1 h2 : store) :
  observed (parse_weight_training_description_obj description h1)
  = observed (parse_weight_training_description_obj description h2)
  /\ observed (parse_weight_training_description_obj description h1)
     = match parse_weight_training_description description with
       | Returned m => Returned (Some (ObjDict m))
       | Raised e => Raised e
       end
  /\ observed
       (parse_weight_training_description_obj description
          (parse_weight_training_description_obj description h1).2)
     = observed (parse_weight_training_description_obj description h1)
  /\ h1 ⊆ (parse_weight_training_description_obj description h1).2
  /\ match (parse_weight_training_description_obj description h1).1 with
     | Returned l => h1 !! l = None
     | Raised _ => True
     end.
Proof.
  split; [by rewrite !observed_call|]. split; [apply observed_call|].
  split; [by rewrite !observed_call|].
  destruct (parse_obj_sim description h1) as (l & h & Hsub & Hl & ->).
  destruct (parse_weight_training_description description) as [m|e]; simpl.
  - split.
    + etrans; [done|]. by apply insert_subseteq.
    + by eapply lookup_weaken_None.
  - done.
Qed.

(** The Hevy log run over the empty store and over the store the first
    call leaves: the set is object 1, then 3; the results are objects 2
    and 4. *)
Example hevy_log_in_store :
  let r1 := parse_weight_training_description_obj (U := ascii_data)
              (PyStr hevy_log) ∅ in
  let r2 := parse_weight_training_description_obj (U := ascii_data)
              (PyStr hevy_log) r1.2 in
  r1.1 = Returned 2%positive
  /\ r2.1 = Returned 4%positive
  /\ r2.2 !! 2%positive = Some (ObjDict hevy_metrics)
  /\ r2.2 !! 4%positive = Some (ObjDict hevy_metrics)
  /\ size (set_at r2.2 1%positive) = 4%nat
  /\ size (set_at r2.2 3%positive) = 4%nat.
Proof. vm_compute. auto 10. Qed.

(** C8. [get_weight_training_metrics] returns the aggregator's result on
    the text of the record's "description" attribute, the empty text when
    the attribute is missing or [None]; in those two cases the result is
    the all-zero one. *)
Theorem C8_adapter_delegates (activity : gmap (list N) pyval) :
  get_weight_training_metrics activity
  = parse_weight_training_description
      (PyStr match activity !! u "description" with
             | Some (PyStr s) => s
             | Some PyNone | None => []
             end)
  /\ get_weight_training_metrics (delete (u "description") activity)
     = Returned zero_metrics
  /\ get_weight_training_metrics (<[u "description" := PyNone]> activity)
     = Returned zero_metrics.
Proof.
  unfold get_weight_training_metrics.
  rewrite lookup_delete_eq, lookup_insert_eq. split; [|done].
  by destruct (activity !! u "description") as [[|[|c s]]|].
Qed.

(** C10. Whenever the aggregator returns, exercise_count is at most
    total_sets. *)
Theorem C10_exercise_count_at_most_sets description m :
  parse_weight_training_description description = Returned m ->
  exercise_count m <= total_sets m.
Proof.
  intros H. apply parse_description_cases in H as [[_ ->]|(st & Hrun & ->)].
  - done.
  - by destruct (run_lines_ok _ _ _ init_state_ok Hrun).
Qed.
End AggregatorFacts.

(** * Runs on concrete text *)

(** C2. The unit token of the pattern is matched in lower case only: on
    "80 KG x 10" [parse_set_line] returns [None], where the claim has it
    return the pair (80 * 2.20462, 10) that it returns on "80 kg x 10" (the
    weight is 176.3696, that is 6205453631558464 * 2^-45); the
    kg test on the lower-cased line does see the unit, and the aggregator
    takes the line for an exercise name. *)
Theorem C2_upper_case_unit_is_not_matched :
  parse_set_line (U := ascii_data) upper_unit_line = Returned None
  /\ parse_set_line (U := ascii_data) lower_unit_line
     = Returned (Some (S754_finite false 6205453631558464 (-45), 10))
  /\ mentions_kg (U := ascii_data) upper_unit_line = true
  /\ looks_like_exercise (U := ascii_data) upper_unit_line = true.
Proof. repeat split; vm_compute; reflexivity. Qed.

(** C6. On the Hevy-style log of the test suite the aggregator returns
    total_volume_lbs = 7230.0 (the float 7949469068820480 * 2^-40, whose
    value is 7230), total_sets = 12, total_reps = 75 and
    exercise_count = 4. *)
Theorem C6_hevy_log :
  parse_weight_training_description (U := ascii_data) (PyStr hevy_log)
  = Returned {| total_volume_lbs := S754_finite false 7949469068820480 (-40);
                total_sets := 12;
                total_reps := 75;
                exercise_count := 4 |}
  /\ 7949469068820480 = 7230 * 2 ^ 40.
Proof. split; vm_compute; reflexivity. Qed.

(** C4 as stated fails: on a line whose weight has 401 digits and whose rep
    count is 0, the volume is infinity * 0, which is NaN, and NaN is not
    at least 0. *)
Lemma C4_volume_can_be_nan :
  parse_weight_training_description (U := ascii_data) (PyStr overflowing_line)
  = Returned nan_metrics
  /\ fle fzero (total_volume_lbs nan_metrics) <> true.
Proof. split; [vm_compute; reflexivity|discriminate]. Qed.

Lemma C1_witness :
  parse_set_line (U := ascii_data) kg_elsewhere_line
  = Returned (Some (S754_finite false 7756817039448080 (-45), 5))
  /\ exists m,
       re_search (U := ascii_data) set_pattern kg_elsewhere_line = Some m
       /\ py_int (U := ascii_data) (group m 2) = Returned 5
       /\ (has_substring (u "kg") (ascii_lower kg_elsewhere_line)
           \/ has_substring (u "kilogram") (ascii_lower kg_elsewhere_line) ->
           S754_finite false 7756817039448080 (-45)
           = fmul (py_float (U := ascii_data) (group m 1))
               (S754_finite false 4964362905246771 (-51)))
       /\ (~ (has_substring (u "kg") (ascii_lower kg_elsewhere_line)
              \/ has_substring (u "kilogram")
                   (ascii_lower kg_elsewhere_line)) ->
           S754_finite false 7756817039448080 (-45)
           = py_float (U := ascii_data) (group m 1)).
Proof.
  split; [vm_compute; reflexivity|].
  apply (C1_kg_conversion_scans_the_whole_line (U := ascii_data)).
  vm_compute. reflexivity.
Defined.

Lemma C3_witness :
  strip (U := ascii_data) label_line <> []
  /\ parse_set_line (U := ascii_data) (strip (U := ascii_data) label_line)
     = Returned None
  /\ exists st',
       step (U := ascii_data) init_state label_line = Returned st'
       /\ total_volume st' = total_volume init_state
       /\ sets_so_far st' = sets_so_far init_state
       /\ reps_so_far st' = reps_so_far init_state
       /\ exercises st' = exercises init_state
       /\ (exercise_name_conditions (U := ascii_data)
            (strip (U := ascii_data) label_line) ->
           current_exercise st' = Some (strip (U := ascii_data) label_line))
       /\ (~ exercise_name_conditions (U := ascii_data)
              (strip (U := ascii_data) label_line) ->
           current_exercise st' = current_exercise init_state).
Proof.
  split; [vm_compute; discriminate|].
  split; [vm_compute; reflexivity|].
  apply (C3_exercise_name_rule (U := ascii_data) init_state label_line).
  - vm_compute. discriminate.
  - vm_compute. reflexivity.
Defined.

Lemma C4_witness :
  parse_weight_training_description (U := ascii_data) (PyStr hevy_log)
  = Returned hevy_metrics
  /\ total_volume_lbs hevy_metrics
     = round2 (volume_sum (recognized_sets (U := ascii_data) (PyStr hevy_log)))
  /\ total_sets hevy_metrics
     = Z.of_nat (length (recognized_sets (U := ascii_data) (PyStr hevy_log)))
  /\ total_reps hevy_metrics
     = reps_sum (recognized_sets (U := ascii_data) (PyStr hevy_log))
  /\ (is_nan (total_volume_lbs hevy_metrics) = true
      \/ fle fzero (total_volume_lbs hevy_metrics) = true).
Proof.
  split; [vm_compute; reflexivity|].
  apply (C4_totals_over_recognized_lines (U := ascii_data) (PyStr hevy_log)).
  vm_compute. reflexivity.
Defined.

Lemma C9_witness :
  parse_set_line (U := ascii_data) upper_unit_line = Returned None
  /\ re_search (U := ascii_data) guard_pattern upper_unit_line = None
  /\ ~ occurs (U := ascii_data) guard_pattern upper_unit_line.
Proof.
  split; [vm_compute; reflexivity|].
  apply (C9_guard_pattern_is_redundant (U := ascii_data)).
  vm_compute. reflexivity.
Defined.

Lemma C10_witness :
  parse_weight_training_description (U := ascii_data) (PyStr hevy_log)
  = Returned hevy_metrics
  /\ exercise_count hevy_metrics <= total_sets hevy_metrics.
Proof.
  split; [vm_compute; reflexivity|].
  apply (C10_exercise_count_at_most_sets (U := ascii_data) (PyStr hevy_log)).
  vm_compute. reflexivity.
Defined.

(** * The examples of the test suite, run on the model *)

Example test_parse_basic_lbs :
  parse_set_line (U := ascii_data) (u "Set 1: 175 lbs x 7")
  = Returned (Some (py_float (U := ascii_data) (u "175.0"), 7)).
Proof. vm_compute. reflexivity. Qed.

Example test_parse_with_failure_annotation :
  parse_set_line (U := ascii_data) (u "Set 3: 170 lbs x 6 [Failure]")
  = Returned (Some (py_float (U := ascii_data) (u "170.0"), 6)).
Proof. vm_compute. reflexivity. Qed.

(** 80 kg is 176.3696 lbs; 6205453631558464 * 2^-45 is the float nearest
    to it. *)
Example test_parse_kg :
  parse_set_line (U := ascii_data) (u "Set 1: 80 kg x 10")
  = Returned (Some (S754_finite false 6205453631558464 (-45), 10))
  /\ py_float (U := ascii_data) (u "176.3696")
     = S754_finite false 6205453631558464 (-45).
Proof. split; vm_compute; reflexivity. Qed.

Example test_parse_no_unit :
  parse_set_line (U := ascii_data) (u "Set 1: 100 x 10")
  = Returned (Some (py_float (U := ascii_data) (u "100.0"), 10)).
Proof. vm_compute. reflexivity. Qed.

Example test_parse_capital_X :
  parse_set_line (U := ascii_data) (u "50 lbs X 8")
  = Returned (Some (py_float (U := ascii_data) (u "50.0"), 8)).
Proof. vm_compute. reflexivity. Qed.

Example test_parse_times_sign :
  parse_set_line (U := ascii_data) (u "50 lbs " ++ [times_sign] ++ u " 8")
  = Returned (Some (py_float (U := ascii_data) (u "50.0"), 8)).
Proof. vm_compute. reflexivity. Qed.

Example test_parse_decimal_weight :
  parse_set_line (U := ascii_data) (u "Set 1: 62.5 lbs x 8")
  = Returned (Some (S754_finite false 8796093022208000 (-47), 8)).
Proof. vm_compute. reflexivity. Qed.

Example test_parse_invalid_line :
  parse_set_line (U := ascii_data) (u "Exercise Name") = Returned None.
Proof. vm_compute. reflexivity. Qed.

Example test_simple_workout :
  parse_weight_training_description (U := ascii_data)
    (PyStr (unlines ["Bench Press"; "Set 1: 135 lbs x 10";
                     "Set 2: 135 lbs x 10"; "Set 3: 135 lbs x 10"]%string))
  = Returned {| total_volume_lbs := py_float (U := ascii_data) (u "4050.0");
                total_sets := 3; total_reps := 30; exercise_count := 1 |}.
Proof. vm_compute. reflexivity. Qed.

Example test_mixed_kg_lbs :
  parse_weight_training_description (U := ascii_data)
    (PyStr (unlines ["Exercise A"; "Set 1: 100 kg x 5";
                     "Exercise B"; "Set 1: 100 lbs x 5"]%string))
  = Returned {| total_volume_lbs := py_float (U := ascii_data) (u "1602.31");
                total_sets := 2; total_reps := 10; exercise_count := 2 |}.
Proof. vm_compute. reflexivity. Qed.

Example test_no_exercise_names :
  parse_weight_training_description (U := ascii_data)
    (PyStr (unlines ["Set 1: 100 lbs x 10"; "Set 2: 100 lbs x 10"]%string))
  = Returned {| total_volume_lbs := py_float (U := ascii_data) (u "2000.0");
                total_sets := 2; total_reps := 20; exercise_count := 0 |}.
Proof. vm_compute. reflexivity. Qed.

(** The literal 2.20462 as a binary64 number: 4964362905246771 * 2^-51,
    which is within half a unit in the last place of 220462 / 100000. *)
Example kg_to_lbs_bits :
  kg_to_lbs = S754_finite false 4964362905246771 (-51)
  /\ 2 * Z.abs (4964362905246771 * 10 ^ 5 - 220462 * 2 ^ 51) <= 10 ^ 5.
Proof. split; [vm_compute; reflexivity|]. apply Z.leb_le. vm_compute. reflexivity. Qed.

(** On operands that are floats themselves, the nearest float to a fraction
    is the IEEE division of the operands. *)
Example float_of_ratio_is_division :
  float_of_ratio 220462 100000
  = SFdiv prec emax (int_as_float 220462) (int_as_float 100000)
  /\ float_of_ratio 625 10
     = SFdiv prec emax (int_as_float 625) (int_as_float 10)
  /\ float_of_ratio 160231 100
     = SFdiv prec emax (int_as_float 160231) (int_as_float 100)
  /\ float_of_ratio 1 3
     = SFdiv prec emax (int_as_float 1) (int_as_float 3).
Proof. repeat split; vm_compute; reflexivity. Qed.

(** Rounding to 2 places goes to the even neighbour at an exact tie (0.125)
    and by the exact binary value otherwise (2.675 is below the tie). *)
Example round2_ties :
  round2 (float_of_ratio 1 8) = float_of_ratio 12 100
  /\ round2 (float_of_ratio 2675 1000) = float_of_ratio 267 100.
Proof. split; vm_compute; reflexivity. Qed.

(** A rep count of more than 4300 digits makes [int] raise, whatever its
    value. *)
Example long_reps_raise :
  parse_set_line (U := ascii_data) (u "1 x " ++ repeat 48%N 4300 ++ u "5")
  = Raised ValueError
  /\ parse_weight_training_description (U := ascii_data)
       (PyStr (u "1 x " ++ repeat 48%N 4300 ++ u "5"))
     = Raised ValueError
  /\ parse_set_line (U := ascii_data) (u "1 x " ++ repeat 48%N 4299 ++ u "5")
     = Returned (Some (S754_finite false 4503599627370496 (-52), 5)).
Proof. repeat split; vm_compute; reflexivity. Qed.

(** A rep count too large for a float makes the call raise. *)
Example huge_reps_raise :
  parse_weight_training_description (U := ascii_data)
    (PyStr (u "1 x 1" ++ repeat 48%N 400))
  = Raised OverflowError.
Proof. vm_compute. reflexivity. Qed.

(** * Further properties of the matcher *)

Section SearchFacts.
Context {U : UnicodeData}.

(** Soundness with capturing groups: the captures reaching the continuation
    are left open. *)
Lemma rmatch_sound_any r : forall s g k gf,
  rmatch r s g k = Some gf ->
  exists w s' g', s = w ++ s' /\ lang r w /\ k s' g' = Some gf.
Proof.
  induction r as [|c|c|c|r1 IH1 r2 IH2|r1 IH1 r2 IH2|r1 IH1|n r1 IH1];
    simpl; intros s g k gf H.
  - exists [], s, g. auto.
  - destruct s as [|x s]; [done|].
    destruct (in_class c x) eqn:Hx; [|done].
    exists [x], s, g. eauto.
  - apply star_match_sound in H as (w & s' & -> & Hw & Hk). eauto 10.
  - destruct s as [|x s]; [done|].
    destruct (in_class c x) eqn:Hx; [|done].
    apply star_match_sound in H as (w & s' & -> & Hw & Hk).
    exists (x :: w), s', g. simpl. rewrite Hx, Hw. auto.
  - apply IH1 in H as (w1 & s1 & g1 & -> & L1 & H).
    apply IH2 in H as (w2 & s2 & g2 & -> & L2 & H).
    exists (w1 ++ w2), s2, g2. rewrite <- app_assoc. eauto 10.
  - apply orelse_Some in H as [H|H].
    + apply IH1 in H as (w & s' & g' & -> & L & H); eauto 10.
    + apply IH2 in H as (w & s' & g' & -> & L & H); eauto 10.
  - apply orelse_Some in H as [H|H].
    + apply IH1 in H as (w & s' & g' & -> & L & H); eauto 10.
    + exists [], s, g. auto.
  - apply IH1 in H as (w & s' & g' & -> & L & H). eauto 10.
Qed.

Lemma re_search_sound_any r s g :
  re_search r s = Some g -> occurs r s.
Proof.
  induction s as [|c s IH]; rewrite re_search_eq;
    destruct (rmatch r _ ∅ _) eqn:E.
  - intros _. apply rmatch_sound_any in E as (w & s' & ? & Hs & L & _).
    exists [], w, s'. auto.
  - done.
  - intros _. apply rmatch_sound_any in E as (w & s' & ? & Hs & L & _).
    exists [], w, s'. auto.
  - intros H. destruct (IH H) as (pre & w & post & -> & L).
    exists (c :: pre), w, post. auto.
Qed.

Lemma parse_set_line_found line :
  parse_set_line line <> Returned None
  <-> is_Some (re_search set_pattern line).
Proof.
  rewrite parse_set_line_None.
  destruct (re_search set_pattern line); split; try done;
    intros H; by destruct H.
Qed.

Lemma re_search_found r line :
  is_Some (re_search r line) <-> occurs r line.
Proof.
  split.
  - intros [g Hg]. by eapply re_search_sound_any.
  - intros (pre & w & post & -> & L). by apply re_search_complete.
Qed.

(** X1. [parse_set_line] returns [None] on a line exactly when no word of
    the set pattern occurs anywhere in it (the match is a search, not
    anchored at either end), and it never raises OverflowError: when the
    pattern occurs it returns a pair, or raises ValueError from [int]. *)
Theorem X1_returns_None_iff_pattern_absent line :
  (parse_set_line line = Returned None <-> ~ occurs set_pattern line)
  /\ parse_set_line line <> Raised OverflowError.
Proof.
  split.
  - rewrite parse_set_line_None, <- re_search_found.
    destruct (re_search set_pattern line) as [m|].
    + split; [done|]. intros H. destruct H. eauto.
    + split; [|done]. by intros _ [? ?].
  - unfold parse_set_line, py_int.
    destruct (re_search set_pattern line) as [m|]; [|done].
    by destruct (int_max_str_digits <? _).
Qed.

Lemma occurs_in_context r pre line post :
  occurs r line -> occurs r (pre ++ line ++ post).
Proof.
  intros (a & w & b & -> & L). exists (pre ++ a), w, (b ++ post).
  split; [|done]. by rewrite <- !app_assoc.
Qed.

Lemma set_pattern_groups_length s m :
  re_search set_pattern s = Some m ->
  exists w1 w2,
    m = <[2%nat := w2]> (<[1%nat := w1]> ∅)
    /\ lang number w1 /\ lang (RPlus CDigit) w2
    /\ (length w1 <= length s)%nat /\ (length w2 <= length s)%nat.
Proof.
  assert (Hat : forall s m,
    rmatch set_pattern s ∅ (fun _ g => Some g) = Some m ->
    exists w1 w2, m = <[2%nat := w2]> (<[1%nat := w1]> ∅)
      /\ lang number w1 /\ lang (RPlus CDigit) w2
      /\ (length w1 <= length s)%nat /\ (length w2 <= length s)%nat).
  { clear s m. intros s m H. unfold set_pattern in H.
    rewrite rmatch_seq, rmatch_group in H.
    apply rmatch_sound in H as (w1 & s1 & -> & L1 & H); [|done].
    rewrite length_app, Nat.add_sub, take_app_length in H.
    do 5 (rewrite rmatch_seq in H;
          apply rmatch_sound in H as (? & ? & -> & _ & H); [|done]).
    rewrite rmatch_group in H.
    apply rmatch_sound in H as (w2 & s7 & -> & L2 & H); [|done].
    rewrite length_app, Nat.add_sub, take_app_length in H.
    exists w1, w2. split; [congruence|]. split; [done|]. split; [done|].
    rewrite !length_app. lia. }
  induction s as [|c s IH]; rewrite re_search_eq;
    destruct (rmatch set_pattern _ ∅ _) eqn:E; try done.
  - intros [= <-]. eauto.
  - intros H. destruct (IH H) as (w1 & w2 & -> & L1 & L2 & H1 & H2).
    exists w1, w2. split; [done|]. split; [done|]. split; [done|].
    simpl. lia.
Qed.

(** On a line of at most 4300 characters [int] does not raise. *)
Lemma parse_set_line_short line :
  Z.of_nat (length line) <= int_max_str_digits ->
  exists o, parse_set_line line = Returned o.
Proof.
  intros Hlen. unfold parse_set_line.
  destruct (re_search set_pattern line) as [m|] eqn:E; [|eauto].
  apply set_pattern_groups_length in E as (w1 & w2 & -> & _ & _ & _ & H2).
  unfold group, py_int. rewrite lookup_insert_eq. simpl.
  destruct (int_max_str_digits <? Z.of_nat (length w2)) eqn:El;
    simpl; [|eauto].
  apply Z.ltb_lt in El. lia.
Qed.

(** X2. Text before and after a set line does not prevent its recognition:
    if [parse_set_line] does not return [None] on a line, it does not
    return [None] on the line with any label put before it and any
    annotation put after it; and it returns a pair there when the whole has
    at most 4300 characters. *)
Theorem X2_context_keeps_recognition pre line post :
  parse_set_line line <> Returned None ->
  parse_set_line (pre ++ line ++ post) <> Returned None
  /\ (Z.of_nat (length (pre ++ line ++ post)) <= 4300 ->
      exists set,
        parse_set_line (pre ++ line ++ post) = Returned (Some set)).
Proof.
  intros H.
  assert (Hc : parse_set_line (pre ++ line ++ post) <> Returned None).
  { apply parse_set_line_found, re_search_found, occurs_in_context.
    by apply re_search_found, parse_set_line_found. }
  split; [done|]. intros Hlen.
  destruct (parse_set_line_short _ Hlen) as [[set|] Ho]; [eauto|done].
Qed.

Lemma plus_digit_first w :
  lang (RPlus CDigit) w ->
  exists d w', w = d :: w' /\ isdecimal d = true.
Proof.
  intros [Hne Hall]. destruct w as [|d w']; [done|].
  simpl in Hall. apply andb_prop in Hall as [Hd _]. eauto.
Qed.

(** X3. [parse_set_line] returns [None] unless the line has a decimal digit,
    somewhere after it one of the separator characters x, X or the
    multiplication sign, and somewhere after that a decimal digit; so a line
    without digits, or without a separator character, is never a set. *)
Theorem X3_recognized_line_has_digit_separator_digit line :
  parse_set_line line <> Returned None ->
  exists a d1 b x c d2 e,
    line = a ++ d1 :: b ++ x :: c ++ d2 :: e
    /\ isdecimal d1 = true /\ is_separator x = true /\ isdecimal d2 = true.
Proof.
  rewrite parse_set_line_found. intros [g Hg].
  apply re_search_sound_any in Hg as (pre & w & post & -> & L).
  destruct L as (n & t1 & -> & (i & f & -> & Li & _) & ws1 & t2 & -> & _
                 & un & t3 & -> & _ & ws2 & t4 & -> & _
                 & sx & t5 & -> & (x & -> & Hx) & ws3 & d & -> & _ & Ld).
  apply plus_digit_first in Li as (d1 & i' & -> & Hd1).
  apply plus_digit_first in Ld as (d2 & d' & -> & Hd2).
  exists pre, d1, (i' ++ f ++ ws1 ++ un ++ ws2), x, ws3, d2, (d' ++ post).
  split; [|done].
  repeat (rewrite <- app_assoc || rewrite <- app_comm_cons). done.
Qed.
End SearchFacts.

(** * Floats that are at least zero *)

Lemma iter_pos_invariant {A} (P : A -> Prop) (f : A -> A) :
  (forall x, P x -> P (f x)) ->
  forall n x, P x -> P (SpecFloat.iter_pos f n x).
Proof. intros Hf. induction n; simpl; auto. Qed.

Lemma shr_1_nonneg mrs : 0 <= shr_m mrs -> 0 <= shr_m (shr_1 mrs).
Proof. destruct mrs as [[|[p|p|]|p] r t]; simpl; lia. Qed.

Lemma shr_fexp_nonneg m e l :
  0 <= m -> 0 <= shr_m (fst (shr_fexp prec emax m e l)).
Proof.
  intros Hm. unfold shr_fexp, shr.
  assert (H0 : 0 <= shr_m (shr_record_of_loc m l))
    by (by destruct l as [|[]]).
  destruct (fexp prec emax (Zdigits2 m + e) - e); simpl; try done.
  by apply (iter_pos_invariant (fun mrs => 0 <= shr_m mrs)), H0;
    apply shr_1_nonneg.
Qed.

Lemma round_nearest_even_nonneg m l :
  0 <= m -> 0 <= round_nearest_even m l.
Proof.
  intros Hm. destruct l as [|[]]; simpl; try lia.
  destruct (Z.even m); lia.
Qed.

Lemma binary_round_aux_at_least_zero mx ex lx :
  0 <= mx -> at_least_zero (binary_round_aux prec emax false mx ex lx).
Proof.
  intros Hm. unfold binary_round_aux.
  pose proof (shr_fexp_nonneg mx ex lx Hm) as H1.
  destruct (shr_fexp _ _ mx ex lx) as [mrs' e']. simpl in H1.
  pose proof (shr_fexp_nonneg _ e' loc_Exact
                (round_nearest_even_nonneg _ (loc_of_shr_record mrs') H1))
    as H2.
  destruct (shr_fexp _ _ _ e' loc_Exact) as [mrs'' e'']. simpl in H2.
  destruct (shr_m mrs''); [done| |lia].
  by destruct (e'' <=? emax - prec).
Qed.

Lemma binary_normalize_at_least_zero m e :
  0 <= m -> at_least_zero (binary_normalize prec emax m e false).
Proof.
  intros Hm. unfold binary_normalize, binary_round.
  destruct m; [done| |lia].
  destruct (shl_align _ _ _). by apply binary_round_aux_at_least_zero.
Qed.

Lemma float_of_ratio_at_least_zero p q : at_least_zero (float_of_ratio p q).
Proof. apply binary_normalize_at_least_zero. lia. Qed.

Lemma int_as_float_at_least_zero n : 0 <= n -> at_least_zero (int_as_float n).
Proof. apply binary_normalize_at_least_zero. Qed.

Lemma at_least_zero_fle x : at_least_zero x <-> fle fzero x = true.
Proof. destruct x as [s|s| |s m e]; simpl; try destruct s; split; done. Qed.

Lemma fadd_at_least_zero x y :
  at_least_zero x -> at_least_zero y -> at_least_zero (fadd x y).
Proof.
  destruct x as [sx|sx| |sx mx ex], y as [sy|sy| |sy my ey]; simpl;
    try done; try (by intros -> ->); try (by intros _ ->); try (by intros ->).
  - by destruct sx, sy.
  - intros -> ->. by apply (binary_normalize_at_least_zero (Z.pos _)).
Qed.

(** A product is at least zero when no operand is infinite: the only product
    of such operands that is NaN has an infinite one. *)
Lemma fmul_at_least_zero x y :
  at_least_zero x -> at_least_zero y ->
  is_infinite x = false -> is_infinite y = false ->
  at_least_zero (fmul x y).
Proof.
  destruct x as [sx|sx| |sx mx ex], y as [sy|sy| |sy my ey]; simpl;
    try done.
  intros -> -> _ _. by apply binary_round_aux_at_least_zero.
Qed.

Lemma fmul_kg_at_least_zero x :
  at_least_zero x -> at_least_zero (fmul x kg_to_lbs).
Proof.
  replace kg_to_lbs with (S754_finite false 4964362905246771 (-51))
    by (vm_compute; reflexivity).
  destruct x as [sx|sx| |sx mx ex]; simpl; try done; intros ->; try done.
  by apply binary_round_aux_at_least_zero.
Qed.

Lemma round2_at_least_zero x : at_least_zero x -> at_least_zero (round2 x).
Proof.
  destruct x as [sx|sx| |sx mx ex]; simpl; try done.
  intros ->. apply float_of_ratio_at_least_zero.
Qed.

Section ValueFacts.
Context {U : UnicodeData}.

Lemma parse_set_line_at_least_zero line w r :
  parse_set_line line = Returned (Some (w, r)) ->
  at_least_zero w /\ 0 <= r.
Proof.
  intros H. apply parse_set_line_returned in H as (m & _ & Hr & ->).
  apply py_int_returned in Hr as [_ ->]. split; [|apply N2Z.is_nonneg].
  destruct (mentions_kg line).
  - apply fmul_kg_at_least_zero, float_of_ratio_at_least_zero.
  - apply float_of_ratio_at_least_zero.
Qed.

(** X4. The weight [parse_set_line] returns is at least 0 (possibly plus
    infinity), never negative and never NaN, and the rep count is at least
    0. *)
Theorem X4_parsed_weight_and_reps_at_least_zero line w r :
  parse_set_line line = Returned (Some (w, r)) ->
  fle fzero w = true /\ 0 <= r.
Proof.
  intros H. apply parse_set_line_at_least_zero in H as [Hw Hr].
  split; [|done]. by apply at_least_zero_fle.
Qed.
End ValueFacts.

(** * When the aggregator returns, and what it returns then *)

Lemma bind_ext {A B} (x : outcome A) (f g : A -> outcome B) :
  (forall a, f a = g a) -> bind x f = bind x g.
Proof. intros H. destruct x; simpl; auto. Qed.

Section ReturnFacts.
Context {U : UnicodeData}.

Lemma line_error_blank : line_error [] = None.
Proof.
  unfold line_error.
  by rewrite (proj1 (parse_set_line_None []) parse_set_line_blank).
Qed.

(** One iteration raises the exception of its line, and returns when the
    line has none. *)
Lemma step_outcome st raw :
  match line_error (strip raw) with
  | Some e => step st raw = Raised e
  | None => exists st', step st raw = Returned st'
  end.
Proof.
  unfold step. destruct (strip raw) as [|c l].
  - rewrite line_error_blank. eauto.
  - unfold line_error, parse_set_line, py_int, int_max_str_digits.
    destruct (re_search set_pattern (c :: l)) as [m|]; simpl.
    + destruct (4300 <? Z.of_nat (length (group m 2))); simpl; [done|].
      unfold float_of_int.
      destruct (is_infinite _); simpl; eauto.
    + destruct (looks_like_exercise (c :: l)); eauto.
Qed.

Lemma step_fits st raw st' :
  step st raw = Returned st' ->
  match recognized (strip raw) with
  | Some set => reps_fit set = true
  | None => True
  end.
Proof.
  unfold step, recognized. destruct (strip raw) as [|c l].
  - by rewrite parse_set_line_blank.
  - destruct (parse_set_line (c :: l)) as [[[w r]|]|e]; simpl; try done.
    unfold float_of_int, reps_fit. simpl. by destruct (is_infinite _).
Qed.

Lemma run_lines_fit lines : forall st st',
  run_lines st lines = Returned st' ->
  forallb reps_fit (omap recognized (List.map strip lines)) = true.
Proof.
  induction lines as [|l lines IH]; intros st st' H; [done|].
  simpl in H. destruct (step st l) as [st1|] eqn:E; [|done]. simpl in H.
  apply IH in H. apply step_fits in E. rewrite map_cons, omap_cons.
  destruct (recognized (strip l)) as [set|]; [|done].
  simpl. by rewrite E, H.
Qed.

(** The loop stops at the first line that raises. *)
Lemma run_lines_outcome lines : forall st,
  match head (omap line_error (List.map strip lines)) with
  | Some e => run_lines st lines = Raised e
  | None => exists st', run_lines st lines = Returned st'
  end.
Proof.
  induction lines as [|l lines IH]; intros st; [simpl; eauto|].
  rewrite map_cons, omap_cons. simpl run_lines.
  pose proof (step_outcome st l) as Hs.
  destruct (line_error (strip l)) as [e|].
  - by rewrite Hs.
  - destruct Hs as [st1 ->]. simpl. apply IH.
Qed.

Lemma finish_init_state : finish init_state = zero_metrics.
Proof.
  unfold finish, zero_metrics, init_state. cbn [exercises].
  by rewrite size_empty.
Qed.

Lemma parse_description_eq description :
  parse_weight_training_description description
  = bind (run_lines init_state (split_on newline (str_of description)))
      (fun st => Returned (finish st)).
Proof.
  unfold parse_weight_training_description.
  destruct description as [|[|c s]]; simpl; try done;
    by rewrite finish_init_state.
Qed.

Lemma parse_outcome description :
  match head (line_errors description) with
  | Some e => parse_weight_training_description description = Raised e
  | None =>
      exists m, parse_weight_training_description description = Returned m
  end.
Proof.
  rewrite parse_description_eq. unfold line_errors.
  pose proof (run_lines_outcome (split_on newline (str_of description))
                init_state) as H.
  destruct (head _) as [e|].
  - by rewrite H.
  - destruct H as [st ->]. simpl. eauto.
Qed.

Lemma parse_returns_iff description :
  (exists m, parse_weight_training_description description = Returned m)
  <-> line_errors description = [].
Proof.
  pose proof (parse_outcome description) as H.
  destruct (line_errors description) as [|e es]; simpl in H.
  - done.
  - rewrite H. split; [by intros [? ?]|done].
Qed.

Lemma parse_returned_fits description m :
  parse_weight_training_description description = Returned m ->
  forallb reps_fit (recognized_sets description) = true.
Proof.
  rewrite parse_description_eq.
  destruct (run_lines init_state _) as [st|e] eqn:E; simpl; [|done].
  intros _. by apply run_lines_fit in E.
Qed.

Lemma description_totals description m :
  parse_weight_training_description description = Returned m ->
  total_sets m = Z.of_nat (length (recognized_sets description))
  /\ total_reps m = reps_sum (recognized_sets description).
Proof.
  rewrite parse_description_eq.
  destruct (run_lines init_state _) as [st|e] eqn:E; simpl; [|done].
  intros [= <-]. apply run_lines_totals in E as (_ & Es & Er).
  unfold recognized_sets. simpl in *. by rewrite Es, Er.
Qed.

(** X5. The aggregator raises exactly when some trimmed line has a rep
    count that [int] or [weight * reps] rejects, and it raises the exception
    of the first such line: ValueError when the rep count has more than
    4300 digits, OverflowError when it has at most 4300 digits and is too
    large to convert to a float.  It returns a result in every other
    case. *)
Theorem X5_raises_exactly_on_oversized_reps description :
  match head (line_errors description) with
  | Some e => parse_weight_training_description description = Raised e
  | None =>
      exists m, parse_weight_training_description description = Returned m
  end.
Proof. apply parse_outcome. Qed.

Lemma recognized_at_least_zero lines :
  Forall (fun set : float * Z => at_least_zero (fst set) /\ 0 <= snd set)
    (omap recognized lines).
Proof.
  induction lines as [|l lines IH]; [constructor|].
  rewrite omap_cons. destruct (recognized l) as [[w r]|] eqn:E; [|done].
  constructor; [|done]. simpl.
  by apply recognized_Some, parse_set_line_at_least_zero in E.
Qed.

Lemma fold_volume_at_least_zero sets : forall acc,
  at_least_zero acc ->
  Forall (fun set : float * Z => at_least_zero (fst set) /\ 0 <= snd set)
    sets ->
  forallb reps_fit sets = true ->
  forallb weight_finite sets = true ->
  at_least_zero (fold_left (fun acc set => fadd acc (set_volume set)) sets acc).
Proof.
  induction sets as [|[w r] sets IH]; simpl; intros acc Hacc Hall Hr Hw;
    [done|].
  apply andb_prop in Hr as [Hr1 Hr], Hw as [Hw1 Hw].
  inversion Hall as [|? ? [Hw0 Hr0] Hall']; subst.
  apply IH; try done. apply fadd_at_least_zero; [done|].
  unfold set_volume. simpl in *.
  unfold reps_fit, weight_finite in *. simpl in *.
  apply negb_true_iff in Hr1, Hw1.
  apply fmul_at_least_zero; auto using int_as_float_at_least_zero.
Qed.

(** X6. Whenever the aggregator returns and no recognized weight has
    overflowed to infinity, total_volume_lbs is at least 0 (and so is not
    NaN). *)
Theorem X6_volume_at_least_zero_for_finite_weights description m :
  parse_weight_training_description description = Returned m ->
  forallb weight_finite (recognized_sets description) = true ->
  fle fzero (total_volume_lbs m) = true.
Proof.
  intros H Hw. pose proof (parse_returned_fits _ _ H) as Hr.
  rewrite parse_description_eq in H.
  destruct (run_lines init_state _) as [st|e] eqn:E; simpl in H; [|done].
  injection H as <-. apply run_lines_totals in E as (Ev & _ & _).
  apply at_least_zero_fle. simpl. apply round2_at_least_zero.
  rewrite Ev. apply fold_volume_at_least_zero; try done.
  apply recognized_at_least_zero.
Qed.
End ReturnFacts.

(** * Trimming, blank lines and labels *)

Lemma drop_while_head p s : head_fails p (drop_while p s).
Proof.
  induction s as [|c s IH]; simpl; [done|].
  destruct (p c) eqn:E; [done|]. simpl. done.
Qed.

Lemma drop_while_fixed p s : head_fails p s -> drop_while p s = s.
Proof. destruct s as [|c s]; simpl; [done|]. by intros ->. Qed.

Lemma drop_while_suffix p s : exists a, s = a ++ drop_while p s.
Proof.
  induction s as [|c s [a IH]]; simpl; [by exists []|].
  destruct (p c); [|by exists []].
  exists (c :: a). simpl. by rewrite <- IH.
Qed.

Lemma split_on_nonempty sep s : split_on sep s <> [].
Proof.
  destruct s as [|c s]; simpl; [done|].
  destruct (c =? sep)%N; [done|]. by destruct (split_on sep s).
Qed.

(** Splitting distributes over a separator between two texts. *)
Lemma split_on_app sep a b :
  split_on sep (a ++ sep :: b) = split_on sep a ++ split_on sep b.
Proof.
  induction a as [|c a IH]; simpl.
  - by rewrite N.eqb_refl.
  - destruct (c =? sep)%N; [by rewrite IH|].
    rewrite IH. pose proof (split_on_nonempty sep a).
    by destruct (split_on sep a).
Qed.

Section LineFacts.
Context {U : UnicodeData}.

(** Trimming a trimmed line changes nothing. *)
Lemma strip_idempotent s : strip (strip s) = strip s.
Proof.
  unfold strip.
  pose proof (drop_while_head isspace s) as Ht.
  set (t := drop_while isspace s) in *.
  pose proof (drop_while_head isspace (rev t)) as Hu.
  destruct (drop_while_suffix isspace (rev t)) as [a Ha].
  set (v := drop_while isspace (rev t)) in *.
  assert (Hrv : head_fails isspace (rev v)).
  { apply (f_equal (@rev N)) in Ha. rewrite rev_involutive, rev_app_distr in Ha.
    destruct (rev v) as [|c w]; [done|].
    rewrite Ha in Ht. done. }
  rewrite (drop_while_fixed _ _ Hrv), rev_involutive.
  by rewrite (drop_while_fixed _ _ Hu).
Qed.

Lemma step_strip st raw : step st (strip raw) = step st raw.
Proof. unfold step. by rewrite strip_idempotent. Qed.

Lemma step_blank st raw : strip raw = [] -> step st raw = Returned st.
Proof. unfold step. by intros ->. Qed.

(** The loop sees a line only through its trimmed text, and blank lines not
    at all. *)
Lemma run_lines_trimmed lines : forall st,
  run_lines st lines
  = run_lines st (List.filter nonblank (List.map strip lines)).
Proof.
  induction lines as [|l lines IH]; intros st; [done|].
  simpl. destruct (strip l) as [|c t] eqn:E; simpl.
  - rewrite (step_blank _ _ E). simpl. apply IH.
  - rewrite <- E, step_strip. apply bind_ext. intros st1. apply IH.
Qed.

Lemma parse_by_trimmed_lines description :
  parse_weight_training_description description
  = bind (run_lines init_state (trimmed_lines description))
      (fun st => Returned (finish st)).
Proof.
  rewrite parse_description_eq. unfold trimmed_lines.
  by rewrite <- run_lines_trimmed.
Qed.

(** X7. The result depends on the description only through its trimmed,
    non-blank lines: two descriptions (absent ones included) with the same
    such lines give the same outcome, so indentation, trailing blanks and
    blank lines are immaterial. *)
Theorem X7_only_trimmed_nonblank_lines_matter d1 d2 :
  trimmed_lines d1 = trimmed_lines d2 ->
  parse_weight_training_description d1
  = parse_weight_training_description d2.
Proof. intros H. by rewrite !parse_by_trimmed_lines, H. Qed.

Lemma step_not_set st raw st' :
  step st raw = Returned st' ->
  parse_set_line (strip raw) = Returned None ->
  st' = if is_label (strip raw) then with_exercise st (strip raw) else st.
Proof.
  unfold step, is_label. intros H Hnone. rewrite Hnone in *.
  destruct (strip raw) as [|c l].
  - injection H as <-. unfold looks_like_exercise. simpl.
    by rewrite andb_false_r.
  - by destruct (looks_like_exercise (c :: l)); injection H as <-.
Qed.

Lemma add_current_subseteq (cur : option (list N)) (seen : gset (list N)) :
  add_current cur seen ⊆ seen ∪ cur_set cur.
Proof. destruct cur as [[|c e]|]; simpl; set_solver. Qed.

(** The names seen, and the current one, come from the names at the start
    and the label lines met. *)
Lemma run_lines_labels lines : forall st st',
  run_lines st lines = Returned st' ->
  exercises st' ∪ cur_set (current_exercise st')
  ⊆ exercises st ∪ cur_set (current_exercise st)
    ∪ list_to_set (List.filter is_label (List.map strip lines)).
Proof.
  induction lines as [|l lines IH]; intros st st' H.
  - injection H as <-. set_solver.
  - simpl in H. destruct (step st l) as [st1|] eqn:E; [|done]. simpl in H.
    apply IH in H. simpl.
    destruct (parse_set_line (strip l)) as [[[w r]|]|e] eqn:Ep.
    + pose proof (step_cases _ _ _ E) as Hc. unfold recognized in Hc.
      rewrite Ep in Hc. subst st1.
      unfold is_label at 1. rewrite Ep. simpl in H.
      pose proof (add_current_subseteq (current_exercise st) (exercises st)).
      set_solver.
    + apply step_not_set in E; [|done].
      destruct (is_label (strip l)); subst st1; simpl in *; set_solver.
    + unfold step in E. rewrite Ep in E. by destruct (strip l).
Qed.

(** X8. Whenever the aggregator returns, every exercise it counted is a
    label line of the description (a trimmed line that is not a set and
    passes the exercise-name test): exercise_count is at most the number of
    distinct label lines, and 0 when there is none. *)
Theorem X8_exercise_count_at_most_label_lines description m :
  parse_weight_training_description description = Returned m ->
  exercise_count m
  <= Z.of_nat (size (list_to_set (label_lines description) : gset (list N))).
Proof.
  rewrite parse_description_eq.
  destruct (run_lines init_state _) as [st|e] eqn:E; simpl; [|done].
  intros [= <-]. apply run_lines_labels in E. simpl in *.
  apply inj_le, subseteq_size. unfold label_lines. set_solver.
Qed.
End LineFacts.

(** * Composition *)

Lemma reps_sum_app (s1 s2 : list (spec_float * Z)) :
  reps_sum (s1 ++ s2) = reps_sum s1 + reps_sum s2.
Proof.
  unfold reps_sum. induction s1 as [|x s1 IH]; simpl; [done|].
  rewrite IH. lia.
Qed.

Section CompositionFacts.
Context {U : UnicodeData}.

Lemma recognized_sets_join a b :
  recognized_sets (PyStr (a ++ newline :: b))
  = recognized_sets (PyStr a) ++ recognized_sets (PyStr b).
Proof.
  unfold recognized_sets. simpl.
  by rewrite split_on_app, List.map_app, omap_app.
Qed.

Lemma line_errors_join a b :
  line_errors (PyStr (a ++ newline :: b))
  = line_errors (PyStr a) ++ line_errors (PyStr b).
Proof.
  unfold line_errors. simpl.
  by rewrite split_on_app, List.map_app, omap_app.
Qed.

(** X9. Joining two texts by a newline adds up their sets and reps: if the
    aggregator returns on the joined text, it returns on each part, and
    total_sets and total_reps of the whole are the sums of those of the
    parts. *)
Theorem X9_sets_and_reps_add_up a b m :
  parse_weight_training_description (PyStr (a ++ newline :: b)) = Returned m ->
  exists ma mb,
    parse_weight_training_description (PyStr a) = Returned ma
    /\ parse_weight_training_description (PyStr b) = Returned mb
    /\ total_sets m = total_sets ma + total_sets mb
    /\ total_reps m = total_reps ma + total_reps mb.
Proof.
  intros H.
  assert (Hno : line_errors (PyStr (a ++ newline :: b)) = [])
    by (apply parse_returns_iff; eauto).
  rewrite line_errors_join in Hno. apply app_eq_nil in Hno as [Ha Hb].
  apply parse_returns_iff in Ha as [ma Ha], Hb as [mb Hb].
  exists ma, mb. split; [done|]. split; [done|].
  apply description_totals in H as [Hs Hr], Ha as [Has Har],
    Hb as [Hbs Hbr].
  rewrite recognized_sets_join in Hs, Hr.
  rewrite length_app in Hs. rewrite reps_sum_app in Hr. lia.
Qed.

(** X10. The adapter reads the "description" key only: setting or removing
    any other key of the activity record leaves its result unchanged. *)
Theorem X10_adapter_reads_only_description
    (activity : gmap (list N) pyval) key v :
  key <> u "description" ->
  get_weight_training_metrics (<[key := v]> activity)
  = get_weight_training_metrics activity
  /\ get_weight_training_metrics (delete key activity)
     = get_weight_training_metrics activity.
Proof.
  intros Hk. unfold get_weight_training_metrics.
  by rewrite lookup_insert_ne, lookup_delete_ne.
Qed.
End CompositionFacts.

(** * Exact results on well-formed set lines *)

Section ExactFacts.
Context {U : UnicodeData}.

Lemma rmatch_opt r s g k :
  rmatch (ROpt r) s g k = orelse (rmatch r s g k) (k s g).
Proof. reflexivity. Qed.

Lemma rmatch_char c x s g k :
  rmatch (RChar c) (x :: s) g k = if in_class c x then k s g else None.
Proof. reflexivity. Qed.

Lemma star_match_stop {A} p (k : list N -> option A) s :
  head_fails p s -> star_match p k s = k s.
Proof. destruct s as [|c s]; simpl; [done|]. by intros ->. Qed.

(** A greedy repetition takes a whole run when the continuation accepts what
    follows it. *)
Lemma star_match_run {A} p (k : list N -> option A) w s r :
  forallb p w = true -> head_fails p s -> k s = Some r ->
  star_match p k (w ++ s) = Some r.
Proof.
  intros Hw Hs Hk. induction w as [|c w IH]; simpl.
  - by rewrite star_match_stop.
  - simpl in Hw. apply andb_prop in Hw as [-> Hw]. by rewrite IH.
Qed.

Lemma star_run c w s g k r :
  forallb (in_class c) w = true -> head_fails (in_class c) s ->
  k s g = Some r ->
  rmatch (RStar c) (w ++ s) g k = Some r.
Proof. intros. simpl. by apply star_match_run. Qed.

Lemma plus_run c w s g k r :
  lang (RPlus c) w -> head_fails (in_class c) s ->
  k s g = Some r ->
  rmatch (RPlus c) (w ++ s) g k = Some r.
Proof.
  intros [Hne Hw] Hs Hk. destruct w as [|x w]; [done|].
  simpl in *. apply andb_prop in Hw as [-> Hw]. by apply star_match_run.
Qed.

Lemma literal_facts c :
  tables_separate -> In c pattern_literals ->
  isdecimal c = false /\ isspace c = false.
Proof.
  intros [_ H] Hin. rewrite forallb_forall in H. apply H in Hin.
  apply andb_prop in Hin as [H1 H2].
  by apply negb_true_iff in H1, H2.
Qed.

Lemma is_separator_cases x :
  is_separator x = true -> x = 120%N \/ x = 88%N \/ x = times_sign.
Proof.
  unfold is_separator. simpl. rewrite !orb_true_iff, !N.eqb_eq.
  intuition discriminate.
Qed.

Lemma separator_facts x :
  tables_separate -> is_separator x = true ->
  isdecimal x = false /\ isspace x = false.
Proof.
  intros Ht Hx. apply literal_facts; [done|].
  apply is_separator_cases in Hx as [->|[->| ->]]; vm_compute; auto 20.
Qed.

Lemma space_not_digit c :
  tables_separate -> isspace c = true -> isdecimal c = false.
Proof.
  intros [H _] Hc. destruct (isdecimal c) eqn:E; [|done].
  apply H in E. congruence.
Qed.

(** The number, followed by a character that is neither a digit nor a full
    stop, is taken whole. *)
Lemma number_run n c t g k r :
  isdecimal full_stop = false ->
  lang number n ->
  isdecimal c = false -> c <> full_stop ->
  k (c :: t) g = Some r ->
  rmatch number (n ++ c :: t) g k = Some r.
Proof.
  intros Hdot (i & o & -> & Li & Lo) Hc Hne Hk.
  unfold number. rewrite rmatch_seq, <- app_assoc.
  destruct Lo as [->|(p & f & -> & (x & -> & Hx) & Lf)].
  - apply plus_run; [done|done|]. rewrite rmatch_opt.
    simpl. replace (c =? full_stop)%N with false; [done|].
    symmetry. by apply N.eqb_neq.
  - simpl in Hx. rewrite orb_false_r in Hx. apply N.eqb_eq in Hx as ->.
    apply plus_run; [done|done|]. rewrite rmatch_opt, rmatch_seq.
    simpl app. cbn [rmatch lit in_class existsb].
    rewrite N.eqb_refl. simpl orb. cbv iota.
    change (orelse (rmatch (RPlus CDigit) (f ++ c :: t) g k)
              (k (full_stop :: f ++ c :: t) g) = Some r).
    by rewrite (plus_run CDigit f (c :: t) g k r).
Qed.

Lemma head_fails_app p ws s :
  forallb (fun c => negb (p c)) ws = true -> head_fails p s ->
  head_fails p (ws ++ s).
Proof.
  destruct ws as [|c ws]; simpl; [done|].
  intros H _. apply andb_prop in H as [H _]. by apply negb_true_iff.
Qed.

Lemma spaces_not p ws :
  (forall c, isspace c = true -> p c = false) ->
  forallb isspace ws = true -> forallb (fun c => negb (p c)) ws = true.
Proof.
  intros Hp. induction ws as [|c ws IH]; simpl; [done|].
  intros H. apply andb_prop in H as [Hc H]. by rewrite (Hp c Hc), IH.
Qed.

Lemma space_not_literal c l :
  tables_separate -> In l pattern_literals -> isspace c = true ->
  (c =? l)%N = false.
Proof.
  intros Ht Hl Hc. apply N.eqb_neq. intros ->.
  destruct (literal_facts l Ht Hl). congruence.
Qed.

(** From the blanks before the separator to the end of the line. *)
Lemma separator_run ws2 x ws3 d g :
  tables_separate ->
  forallb isspace ws2 = true -> is_separator x = true ->
  forallb isspace ws3 = true -> lang (RPlus CDigit) d ->
  rmatch
    (RSeq (RStar CSpace)
       (RSeq separator (RSeq (RStar CSpace) (RGroup 2 (RPlus CDigit)))))
    (ws2 ++ x :: ws3 ++ d) g (fun _ g' => Some g')
  = Some (<[2%nat := d]> g).
Proof.
  intros Ht Hws2 Hx Hws3 Ld.
  destruct (separator_facts x Ht Hx) as [Hxd Hxs].
  rewrite rmatch_seq. apply star_run; [done|done|]. cbv beta.
  rewrite rmatch_seq. unfold separator at 1. rewrite rmatch_char.
  change (in_class _ x) with (is_separator x). rewrite Hx.
  rewrite rmatch_seq. apply star_run; [done| |].
  { destruct Ld as [Hne Hd]. destruct d as [|c d]; [done|].
    simpl in *. apply andb_prop in Hd as [Hc _]. by apply Ht. }
  cbv beta. rewrite rmatch_group.
  pose proof (plus_run CDigit d [] g
    (fun s1 g1 => Some (<[2%nat := take (length d - length s1) d]> g1))
    (<[2%nat := d]> g) Ld I) as H.
  rewrite app_nil_r in H. apply H. simpl.
  by rewrite Nat.sub_0_r, firstn_all.
Qed.

Lemma no_unit_here x t g k :
  is_separator x = true ->
  rmatch (ROpt unit_token) (x :: t) g k = k (x :: t) g.
Proof.
  intros Hx. apply is_separator_cases in Hx as [->|[->| ->]]; reflexivity.
Qed.

(** A unit token followed by a character other than s is taken whole (the
    plural s included). *)
Lemma unit_run un c t g k r :
  In un unit_words -> (c =? 115)%N = false ->
  k (c :: t) g = Some r ->
  rmatch (ROpt unit_token) (un ++ c :: t) g k = Some r.
Proof.
  intros Hin Hc Hk. rewrite rmatch_opt.
  assert (H : rmatch unit_token (un ++ c :: t) g k = Some r);
    [|by rewrite H].
  simpl in Hin.
  repeat (destruct Hin as [<-|Hin];
          [cbn; rewrite ?Hc; cbn; rewrite ?Hk; reflexivity|]).
  done.
Qed.

Lemma unit_head un :
  In un unit_words ->
  exists c t, un = c :: t /\ In c pattern_literals /\ c <> full_stop.
Proof.
  intros Hin. simpl in Hin.
  repeat (destruct Hin as [<-|Hin];
          [eexists _, _; split; [reflexivity|];
           split; [vm_compute; auto 20|done]|]).
  done.
Qed.

Lemma search_at_start r s g :
  rmatch r s ∅ (fun _ g' => Some g') = Some g -> re_search r s = Some g.
Proof. intros H. by rewrite re_search_eq, H. Qed.

Lemma parse_of_groups line n d :
  re_search set_pattern line = Some (<[2%nat := d]> (<[1%nat := n]> ∅)) ->
  parse_set_line line
  = if 4300 <? Z.of_nat (length d) then Raised ValueError
    else Returned
           (Some (if mentions_kg line
                  then fmul (py_float n)
                         (S754_finite false 4964362905246771 (-51))
                  else py_float n,
                  Z.of_N (digits_value d))).
Proof.
  intros H. unfold parse_set_line. rewrite H. unfold group.
  rewrite lookup_insert_eq, lookup_insert_ne, lookup_insert_eq by done.
  unfold py_int, int_max_str_digits. rewrite kg_to_lbs_literal.
  unfold float_2_20462. cbn [default].
  by destruct (4300 <? _).
Qed.

(** The set pattern at the start of a line: the number, then the rest of
    the pattern on what follows. *)
Lemma set_pattern_run n c t m :
  tables_separate ->
  lang number n -> isdecimal c = false -> c <> full_stop ->
  rmatch
    (RSeq (RStar CSpace)
       (RSeq (ROpt unit_token)
          (RSeq (RStar CSpace)
             (RSeq separator
                (RSeq (RStar CSpace) (RGroup 2 (RPlus CDigit)))))))
    (c :: t) (<[1%nat := n]> ∅) (fun _ g' => Some g') = Some m ->
  rmatch set_pattern (n ++ c :: t) ∅ (fun _ g' => Some g') = Some m.
Proof.
  intros Ht Ln Hc Hne H. unfold set_pattern.
  rewrite rmatch_seq, rmatch_group.
  apply number_run; try done.
  - apply (literal_facts full_stop Ht). vm_compute. auto 20.
  - cbv beta. by rewrite length_app, Nat.add_sub, take_app_length.
Qed.

(** X11. On a line made of a number (digits, optionally a full stop and
    digits), optional blanks, a separator x, X or the multiplication sign,
    optional blanks and an integer of at most 4300 digits, [parse_set_line]
    returns exactly that number as the weight (times 2.20462, the float
    4964362905246771 * 2^-51, when the line mentions kg) and that integer
    as the reps; when the integer has more than 4300 digits it raises
    ValueError. *)
Theorem X11_exact_on_number_separator_integer n ws1 x ws2 d :
  tables_separate ->
  lang number n -> forallb isspace ws1 = true -> is_separator x = true ->
  forallb isspace ws2 = true -> lang (RPlus CDigit) d ->
  parse_set_line (n ++ ws1 ++ x :: ws2 ++ d)
  = if 4300 <? Z.of_nat (length d) then Raised ValueError
    else Returned
           (Some (if mentions_kg (n ++ ws1 ++ x :: ws2 ++ d)
                  then fmul (py_float n)
                         (S754_finite false 4964362905246771 (-51))
                  else py_float n,
                  Z.of_N (digits_value d))).
Proof.
  intros Ht Ln Hws1 Hx Hws2 Ld.
  destruct (separator_facts x Ht Hx) as [Hxd Hxs].
  apply parse_of_groups, search_at_start.
  assert (Hrest :
    rmatch
      (RSeq (RStar CSpace)
         (RSeq (ROpt unit_token)
            (RSeq (RStar CSpace)
               (RSeq separator
                  (RSeq (RStar CSpace) (RGroup 2 (RPlus CDigit)))))))
      (ws1 ++ x :: ws2 ++ d) (<[1%nat := n]> ∅) (fun _ g' => Some g')
    = Some (<[2%nat := d]> (<[1%nat := n]> ∅))).
  { rewrite rmatch_seq. apply star_run; [done|done|]. cbv beta.
    rewrite rmatch_seq, no_unit_here by done.
    by apply (separator_run [] x ws2 d). }
  destruct ws1 as [|c ws1].
  - apply set_pattern_run; try done.
    apply is_separator_cases in Hx as [->|[->| ->]]; done.
  - simpl in Hws1. apply andb_prop in Hws1 as [Hc Hws1].
    apply set_pattern_run; try done.
    + by apply space_not_digit.
    + apply N.eqb_neq, space_not_literal; try done. vm_compute. auto 20.
Qed.

(** X12. The same with a unit token (lbs, lb, pounds, pound, kg, kilograms
    or kilogram, in lower case) between the number and the separator, each
    side of it with optional blanks: [parse_set_line] returns exactly the
    number as the weight (times 2.20462, the float 4964362905246771 * 2^-51,
    when the line mentions kg) and the integer as the reps when the integer
    has at most 4300 digits, and raises ValueError when it has more. *)
Theorem X12_exact_on_number_unit_separator_integer n ws1 un ws2 x ws3 d :
  tables_separate ->
  lang number n -> forallb isspace ws1 = true -> In un unit_words ->
  forallb isspace ws2 = true -> is_separator x = true ->
  forallb isspace ws3 = true -> lang (RPlus CDigit) d ->
  parse_set_line (n ++ ws1 ++ un ++ ws2 ++ x :: ws3 ++ d)
  = if 4300 <? Z.of_nat (length d) then Raised ValueError
    else Returned
           (Some (if mentions_kg (n ++ ws1 ++ un ++ ws2 ++ x :: ws3 ++ d)
                  then fmul (py_float n)
                         (S754_finite false 4964362905246771 (-51))
                  else py_float n,
                  Z.of_N (digits_value d))).
Proof.
  intros Ht Ln Hws1 Hun Hws2 Hx Hws3 Ld.
  destruct (unit_head un Hun) as (l & un' & Eun & Hl & Hldot).
  destruct (literal_facts l Ht Hl) as [Hld Hls].
  assert (Htail : exists c t,
            ws2 ++ x :: ws3 ++ d = c :: t /\ (c =? 115)%N = false).
  { destruct ws2 as [|c ws2].
    - exists x, (ws3 ++ d). split; [done|].
      apply is_separator_cases in Hx as [->|[->| ->]]; done.
    - exists c, (ws2 ++ x :: ws3 ++ d). split; [done|].
      simpl in Hws2. apply andb_prop in Hws2 as [Hc _].
      apply space_not_literal; try done. vm_compute. auto 20. }
  destruct Htail as (c & t & Etail & Hc).
  apply parse_of_groups, search_at_start.
  assert (Hrest :
    rmatch
      (RSeq (RStar CSpace)
         (RSeq (ROpt unit_token)
            (RSeq (RStar CSpace)
               (RSeq separator
                  (RSeq (RStar CSpace) (RGroup 2 (RPlus CDigit)))))))
      (ws1 ++ un ++ ws2 ++ x :: ws3 ++ d) (<[1%nat := n]> ∅)
      (fun _ g' => Some g')
    = Some (<[2%nat := d]> (<[1%nat := n]> ∅))).
  { rewrite rmatch_seq. apply star_run; [done|by rewrite Eun|]. cbv beta.
    rewrite rmatch_seq, Etail. apply unit_run; [done|done|]. cbv beta.
    rewrite <- Etail. by apply separator_run. }
  destruct ws1 as [|b ws1].
  - simpl in *. rewrite Eun in *. simpl in *.
    by apply set_pattern_run.
  - simpl in Hws1. apply andb_prop in Hws1 as [Hb Hws1].
    apply set_pattern_run; try done.
    + by apply space_not_digit.
    + apply N.eqb_neq, space_not_literal; try done. vm_compute. auto 20.
Qed.
End ExactFacts.

(** * Sizes of the floating-point results *)

Lemma digits2_pos_iter_xO m d :
  digits2_pos (Pos.iter xO m d) = (digits2_pos m + d)%positive.
Proof.
  induction d as [|d IH] using Pos.peano_ind.
  - simpl. lia.
  - rewrite Pos.iter_succ. simpl. rewrite IH. lia.
Qed.

Lemma Zdigits2_log2 z : 0 < z -> Zdigits2 z = Z.log2 z + 1.
Proof.
  destruct z as [|p|p]; try lia. intros _. simpl.
  induction p as [p IH|p IH|]; simpl in *; try lia.
  - destruct p; simpl in *; lia.
  - destruct p; simpl in *; lia.
Qed.

Lemma Zdigits2_nonneg z : 0 <= Zdigits2 z.
Proof. destruct z; simpl; lia. Qed.

Lemma Zdigits2_below z k : 0 <= z < 2 ^ k -> 0 <= k -> Zdigits2 z <= k.
Proof.
  intros [H0 Hk] Hk0. destruct (Z.eq_dec z 0) as [->|Hz]; [simpl; lia|].
  rewrite Zdigits2_log2 by lia.
  assert (Z.log2 z < k) by (apply Z.log2_lt_pow2; lia). lia.
Qed.

Lemma Zdigits2_mono a b : 0 <= a <= b -> Zdigits2 a <= Zdigits2 b.
Proof.
  intros [Ha Hab]. destruct (Z.eq_dec a 0) as [->|Hz].
  - apply Zdigits2_nonneg.
  - rewrite !Zdigits2_log2 by lia. pose proof (Z.log2_le_mono a b). lia.
Qed.

Lemma Zdigits2_succ m : 0 <= m -> Zdigits2 (m + 1) <= Zdigits2 m + 1.
Proof.
  intros Hm. destruct (Z.eq_dec m 0) as [->|Hz]; [simpl; lia|].
  rewrite !Zdigits2_log2 by lia. replace (m + 1) with (Z.succ m) by lia.
  pose proof (Z.log2_succ_le m). lia.
Qed.

Lemma Zdigits2_mul a b :
  0 < a -> 0 < b -> Zdigits2 (a * b) <= Zdigits2 a + Zdigits2 b.
Proof.
  intros Ha Hb. rewrite !Zdigits2_log2 by lia.
  pose proof (Z.log2_mul_above a b). lia.
Qed.

Lemma shr_1_digits mrs :
  0 <= shr_m mrs ->
  0 <= shr_m (shr_1 mrs)
  /\ Zdigits2 (shr_m (shr_1 mrs)) = Z.max 0 (Zdigits2 (shr_m mrs) - 1).
Proof. destruct mrs as [[|[p|p|]|p] r t]; simpl; lia. Qed.

Lemma iter_shr_1_digits n : forall mrs,
  0 <= shr_m mrs ->
  0 <= shr_m (SpecFloat.iter_pos shr_1 n mrs)
  /\ Zdigits2 (shr_m (SpecFloat.iter_pos shr_1 n mrs))
     = Z.max 0 (Zdigits2 (shr_m mrs) - Z.pos n).
Proof.
  induction n as [n IH|n IH|]; intros mrs H; simpl.
  - destruct (shr_1_digits mrs H) as [H1 E1].
    destruct (IH _ H1) as [H2 E2]. destruct (IH _ H2) as [H3 E3].
    split; [done|]. rewrite E3, E2, E1. lia.
  - destruct (IH _ H) as [H2 E2]. destruct (IH _ H2) as [H3 E3].
    split; [done|]. rewrite E3, E2. lia.
  - apply shr_1_digits, H.
Qed.

(** One shift to the exponent of the format: the new exponent, and the
    size of what is left. *)
Lemma shr_fexp_bounds m e l :
  0 <= m ->
  0 <= shr_m (fst (shr_fexp prec emax m e l))
  /\ snd (shr_fexp prec emax m e l)
     = Z.max e (fexp prec emax (Zdigits2 m + e))
  /\ Zdigits2 (shr_m (fst (shr_fexp prec emax m e l)))
       + snd (shr_fexp prec emax m e l)
     <= Z.max (snd (shr_fexp prec emax m e l)) (Zdigits2 m + e).
Proof.
  intros Hm. unfold shr_fexp, shr.
  assert (H0 : shr_m (shr_record_of_loc m l) = m)
    by (by destruct l as [|[]]).
  pose proof (Zdigits2_nonneg m).
  destruct (fexp prec emax (Zdigits2 m + e) - e) as [|n|n] eqn:E; simpl;
    rewrite ?H0; try lia.
  destruct (iter_shr_1_digits n (shr_record_of_loc m l)) as [H1 E1];
    [by rewrite H0|].
  rewrite H0 in E1. rewrite E1. lia.
Qed.

(** Rounding a non-negative mantissa of size at most [d] (with [d] at most
    1023 and the exponent at most 970) gives a zero or a finite number,
    of size at most [d + 1]. *)
Lemma binary_round_aux_bounded sx mx ex lx d :
  0 <= mx -> Zdigits2 mx + ex <= d -> ex <= 970 -> -1074 <= d <= 1023 ->
  bounded_float (d + 1) (Z.max (Z.max ex (d - 52)) (-1074))
    (binary_round_aux prec emax sx mx ex lx).
Proof.
  intros Hm Hd Hex Hd'. unfold binary_round_aux.
  destruct (shr_fexp_bounds mx ex lx Hm) as (H1 & E1 & B1).
  destruct (shr_fexp prec emax mx ex lx) as [mrs' e']. simpl in H1, E1, B1.
  pose proof (round_nearest_even_nonneg _ (loc_of_shr_record mrs') H1) as Hr.
  assert (Hrd : Zdigits2 (round_nearest_even (shr_m mrs')
                             (loc_of_shr_record mrs'))
                <= Zdigits2 (shr_m mrs') + 1).
  { pose proof (Zdigits2_succ _ H1).
    destruct (loc_of_shr_record mrs') as [|[]]; simpl; try lia.
    destruct (Z.even (shr_m mrs')); lia. }
  destruct (shr_fexp_bounds _ e' loc_Exact Hr) as (H2 & E2 & B2).
  destruct (shr_fexp prec emax _ e' loc_Exact) as [mrs'' e''].
  simpl in H2, E2, B2.
  pose proof (Zdigits2_nonneg mx).
  unfold fexp, SpecFloat.emin, prec, emax in *.
  destruct (shr_m mrs'') as [|m''|m''] eqn:Em; [done| |lia].
  assert (e'' <= 971) by lia.
  destruct (e'' <=? 1024 - 53) eqn:El; [|lia].
  simpl. simpl in B2. lia.
Qed.

Lemma shl_align_bounds m e e' :
  snd (shl_align m e e') <= e
  /\ Z.pos (digits2_pos (fst (shl_align m e e'))) + snd (shl_align m e e')
     = Z.pos (digits2_pos m) + e.
Proof.
  unfold shl_align. destruct (e' - e) as [|d|d] eqn:E; simpl; try lia.
  rewrite digits2_pos_iter_xO. lia.
Qed.

Lemma binary_normalize_bounded n e d :
  0 <= n -> Zdigits2 n + e <= d -> e <= 970 -> -1074 <= d <= 1023 ->
  bounded_float (d + 1) (Z.max (Z.max e (d - 52)) (-1074))
    (binary_normalize prec emax n e false).
Proof.
  intros Hn Hd He Hd'. unfold binary_normalize, binary_round.
  destruct n as [|m|m]; [done| |lia].
  destruct (shl_align_bounds m e (fexp prec emax (Z.pos (digits2_pos m) + e)))
    as [Hz Ez].
  destruct (shl_align m e _) as [mz ez]. simpl in Hz, Ez. simpl in Hd.
  pose proof (binary_round_aux_bounded false (Z.pos mz) ez loc_Exact d)
    as H.
  simpl in H.
  assert (Hb : bounded_float (d + 1) (Z.max (Z.max ez (d - 52)) (-1074))
            (binary_round_aux prec emax false (Z.pos mz) ez loc_Exact))
    by (apply H; lia).
  destruct (binary_round_aux prec emax false (Z.pos mz) ez loc_Exact);
    simpl in *; try done. lia.
Qed.

Lemma bounded_float_finite b e x :
  bounded_float b e x -> is_infinite x = false /\ is_nan x = false.
Proof. by destruct x. Qed.

(** An integer below 2^1023 converts to a float. *)
Lemma int_as_float_fits n :
  0 <= n < 2 ^ 1023 -> is_infinite (int_as_float n) = false.
Proof.
  intros Hn. unfold int_as_float.
  eapply bounded_float_finite, (binary_normalize_bounded n 0 1023); try lia.
  pose proof (Zdigits2_below n 1023). lia.
Qed.

Lemma quotient_below p q :
  let e := Z.log2 (Z.of_N p) - Z.log2 (Z.pos q) - 64 in
  let num := if e <? 0 then Z.of_N p * 2 ^ (- e) else Z.of_N p in
  let den := if e <? 0 then Z.pos q else Z.pos q * 2 ^ e in
  0 < den /\ 0 <= num / den < 2 ^ 65.
Proof.
  intros e num den.
  set (P := Z.of_N p) in *. set (Q := Z.pos q) in *.
  assert (HP : 0 <= P) by (unfold P; lia).
  assert (HQ : 0 < Q) by (unfold Q; lia).
  pose proof (Z.log2_nonneg P) as Ha. pose proof (Z.log2_nonneg Q) as Hb.
  assert (HPa : P < 2 ^ (Z.log2 P + 1)).
  { destruct (Z.eq_dec P 0) as [->|Hz]; [simpl; lia|].
    pose proof (Z.log2_spec P). replace (Z.log2 P + 1) with (Z.succ (Z.log2 P))
      by lia. lia. }
  assert (HQb : 2 ^ Z.log2 Q <= Q) by (apply Z.log2_spec; lia).
  assert (Hpos : forall k, 0 <= k -> 0 < 2 ^ k)
    by (intros; apply Z.pow_pos_nonneg; lia).
  pose proof (Hpos _ Hb) as HQ2.
  assert (Hden : 0 < den).
  { unfold den. destruct (e <? 0) eqn:E; [lia|].
    apply Z.ltb_ge in E. pose proof (Hpos e E). nia. }
  split; [done|]. split.
  - apply Z.div_pos; [|done]. unfold num. destruct (e <? 0) eqn:E; [|lia].
    apply Z.ltb_lt in E. pose proof (Hpos (- e)). nia.
  - apply Z.div_lt_upper_bound; [done|].
    unfold num, den. destruct (e <? 0) eqn:E.
    + apply Z.ltb_lt in E.
      assert (Ee : Z.log2 P + 1 + - e = Z.log2 Q + 65) by (unfold e; lia).
      assert (Hp2 : 2 ^ (Z.log2 P + 1) * 2 ^ (- e) = 2 ^ Z.log2 Q * 2 ^ 65).
      { rewrite <- !Z.pow_add_r by lia. by rewrite Ee. }
      pose proof (Hpos (- e)). pose proof (Hpos 65). nia.
    + apply Z.ltb_ge in E.
      assert (Ee : Z.log2 P + 1 = Z.log2 Q + e + 65) by (unfold e; lia).
      assert (Hp2 : 2 ^ (Z.log2 P + 1) = 2 ^ Z.log2 Q * 2 ^ e * 2 ^ 65).
      { rewrite <- !Z.pow_add_r by lia. by rewrite Ee. }
      pose proof (Hpos e E). pose proof (Hpos 65). nia.
Qed.

(** The float nearest to a fraction [p / q] is a zero or finite, of size at
    most [log2 p - log2 q + 2], when that is at most 1023. *)
Lemma float_of_ratio_bounded p q d :
  Z.log2 (Z.of_N p) - Z.log2 (Z.pos q) + 1 <= d -> -1074 <= d <= 1023 ->
  bounded_float (d + 1) (Z.max (d - 52) (-1074)) (float_of_ratio p q).
Proof.
  intros HL Hd. unfold float_of_ratio, round_binary64.
  destruct (quotient_below p q) as (Hden & Hq0 & Hq).
  set (e := Z.log2 (Z.of_N p) - Z.log2 (Z.pos q) - 64) in *.
  set (num := if e <? 0 then Z.of_N p * 2 ^ (- e) else Z.of_N p) in *.
  set (den := if e <? 0 then Z.pos q else Z.pos q * 2 ^ e) in *.
  set (sticky := if num mod den =? 0 then 0 else 1).
  assert (Hs : 0 <= sticky <= 1) by (unfold sticky; destruct (_ =? 0); lia).
  rewrite Z2N.id by lia.
  assert (Hm : Zdigits2 (2 * (num / den) + sticky) <= 66)
    by (apply Zdigits2_below; lia).
  pose proof (binary_normalize_bounded (2 * (num / den) + sticky) (e - 1) d)
    as H.
  assert (Hb : bounded_float (d + 1)
                 (Z.max (Z.max (e - 1) (d - 52)) (-1074))
                 (binary_normalize prec emax (2 * (num / den) + sticky)
                    (e - 1) false))
    by (apply H; unfold e in *; lia).
  destruct (binary_normalize prec emax _ (e - 1) false); simpl in *;
    try done. unfold e in *. lia.
Qed.

(** Multiplying by 2.20462 adds at most 3 to the size. *)
Lemma fmul_kg_bounded x b e :
  bounded_float b e x -> -1074 <= b + 2 <= 1023 -> e <= 1021 ->
  bounded_float (b + 3) (Z.max (Z.max (e - 51) (b - 50)) (-1074))
    (fmul x kg_to_lbs).
Proof.
  replace kg_to_lbs with (S754_finite false 4964362905246771 (-51))
    by (vm_compute; reflexivity).
  destruct x as [sx|sx| |sx mx ex]; simpl; try done.
  intros [Hb He] Hb2 He2.
  pose proof (binary_round_aux_bounded (xorb sx false)
                (Z.pos (mx * 4964362905246771)) (ex + -51) loc_Exact (b + 2))
    as H.
  replace (b + 2 + 1) with (b + 3) in H by lia.
  replace (b + 2 - 52) with (b - 50) in H by lia.
  assert (Hd : Zdigits2 (Z.pos (mx * 4964362905246771)) + (ex + -51)
               <= b + 2).
  { pose proof (Zdigits2_mul (Z.pos mx) 4964362905246771).
    change (Zdigits2 4964362905246771) with 53 in *.
    change (Z.pos mx * 4964362905246771) with
      (Z.pos (mx * 4964362905246771)) in *.
    simpl Zdigits2 in *. lia. }
  assert (Hr : bounded_float (b + 3)
                 (Z.max (Z.max (ex + -51) (b - 50)) (-1074))
                 (binary_round_aux prec emax (xorb sx false)
                    (Z.pos (mx * 4964362905246771)) (ex + -51) loc_Exact))
    by (apply H; lia).
  destruct (binary_round_aux prec emax _ _ (ex + -51) loc_Exact);
    simpl in *; try done. lia.
Qed.

(** * Descriptions with lines of ordinary length *)

Lemma length_before_char c s : (length (before_char c s) <= length s)%nat.
Proof.
  induction s as [|x s IH]; simpl; [lia|].
  destruct (x =? c)%N; simpl; lia.
Qed.

Lemma length_drop_while p s : (length (drop_while p s) <= length s)%nat.
Proof.
  induction s as [|x s IH]; simpl; [lia|]. destruct (p x); simpl; lia.
Qed.

Lemma pow10_300 : Z.log2 (10 ^ 300) = 996 /\ 10 ^ 300 < 2 ^ 1023.
Proof. split; [vm_compute; reflexivity|]. apply Z.ltb_lt. vm_compute. reflexivity. Qed.

Section SizeFacts.
Context {U : UnicodeData}.

Lemma length_strip s : (length (strip s) <= length s)%nat.
Proof.
  unfold strip. rewrite length_rev.
  pose proof (length_drop_while isspace (rev (drop_while isspace s))) as H1.
  rewrite length_rev in H1.
  pose proof (length_drop_while isspace s). lia.
Qed.

Lemma digits_value_acc s : forall acc,
  digit_values_decimal -> forallb isdecimal s = true ->
  Z.of_N (fold_left (fun acc c => (acc * 10 + decimal_value c)%N) s acc) + 1
  <= (Z.of_N acc + 1) * 10 ^ Z.of_nat (length s).
Proof.
  induction s as [|c s IH]; intros acc Hd Hs.
  - simpl. lia.
  - cbn [forallb] in Hs. apply andb_prop in Hs as [Hc Hs].
    cbn [fold_left length]. rewrite Nat2Z.inj_succ, Z.pow_succ_r by lia.
    specialize (IH (acc * 10 + decimal_value c)%N Hd Hs).
    pose proof (Hd c Hc).
    assert (0 < 10 ^ Z.of_nat (length s)) by (apply Z.pow_pos_nonneg; lia).
    nia.
Qed.

Lemma digits_value_below s :
  digit_values_decimal -> forallb isdecimal s = true ->
  Z.of_N (digits_value s) < 10 ^ Z.of_nat (length s).
Proof.
  intros Hd Hs. pose proof (digits_value_acc s 0%N Hd Hs) as H.
  unfold digits_value. simpl in H. lia.
Qed.

Lemma before_char_digits c i rest :
  isdecimal c = false -> forallb isdecimal i = true ->
  before_char c (i ++ rest) = i ++ before_char c rest
  /\ after_char c (i ++ rest) = after_char c rest.
Proof.
  intros Hc. induction i as [|x i IH]; [done|].
  cbn [forallb]. intros H. apply andb_prop in H as [Hx H].
  destruct (IH H) as [IH1 IH2]. simpl.
  replace (x =? c)%N with false; [by rewrite IH1, IH2|].
  symmetry. apply N.eqb_neq. intros ->. congruence.
Qed.

(** The digits of a number, without its full stop. *)
Lemma number_digits n :
  isdecimal full_stop = false -> lang number n ->
  forallb isdecimal
    (before_char full_stop n ++ after_char full_stop n) = true
  /\ (length (before_char full_stop n) <= length n)%nat.
Proof.
  intros Hdot (i & o & -> & [_ Hi] & Lo).
  assert (Hi' : forallb isdecimal i = true) by exact Hi.
  destruct (before_char_digits full_stop i o Hdot Hi') as [-> ->].
  destruct Lo as [->|(p & f & -> & (x & -> & Hx) & [_ Hf])].
  - simpl. rewrite !app_nil_r. split; [done|lia].
  - assert (Hf' : forallb isdecimal f = true) by exact Hf.
    simpl in Hx. rewrite orb_false_r in Hx. apply N.eqb_eq in Hx as ->.
    simpl. rewrite app_nil_r, forallb_app, !length_app.
    split; [by rewrite Hi', Hf'|simpl; lia].
Qed.

Lemma pow10_below_300 (k : nat) : (k <= 300)%nat -> 10 ^ Z.of_nat k <= 10 ^ 300.
Proof. intros Hk. apply Z.pow_le_mono_r; lia. Qed.

(** [float] of a text of fewer than 300 characters is a zero or a finite
    number, below 2^999. *)
Lemma py_float_bounded s :
  digit_values_decimal -> isdecimal full_stop = false ->
  lang number s -> (length s < 300)%nat ->
  bounded_float 999 946 (py_float s).
Proof.
  intros Hd Hdot Ls Hlen. unfold py_float.
  destruct (number_digits s Hdot Ls) as [Hdig Hip].
  set (ip := before_char full_stop s) in *.
  set (fp := after_char full_stop s) in *.
  pose proof (digits_value_below (ip ++ fp) Hd Hdig) as Hp.
  rewrite length_app, Nat2Z.inj_add, Z.pow_add_r in Hp by lia.
  assert (Hq : 0 < 10 ^ Z.of_nat (length fp)) by (apply Z.pow_pos_nonneg; lia).
  assert (Ha : 0 < 10 ^ Z.of_nat (length ip)) by (apply Z.pow_pos_nonneg; lia).
  set (P := Z.of_N (digits_value (ip ++ fp))) in *.
  assert (HP : 0 <= P) by (unfold P; lia).
  assert (HL : Z.log2 P - Z.log2 (10 ^ Z.of_nat (length fp)) <= 997).
  { pose proof (Z.log2_le_mono P
                  (10 ^ Z.of_nat (length ip) * 10 ^ Z.of_nat (length fp))).
    pose proof (Z.log2_mul_above (10 ^ Z.of_nat (length ip))
                  (10 ^ Z.of_nat (length fp))).
    pose proof (Z.log2_le_mono (10 ^ Z.of_nat (length ip)) (10 ^ 300)).
    pose proof (pow10_below_300 (length ip)).
    destruct pow10_300 as [E _]. lia. }
  pose proof (Z.log2_nonneg (10 ^ Z.of_nat (length fp))).
  pose proof (Z.log2_nonneg P).
  apply (float_of_ratio_bounded _ _ 998); [|lia].
  rewrite Z2Pos.id by done. fold P. lia.
Qed.

(** On a line of fewer than 300 characters the weight is not infinite and
    the rep count converts to a float. *)
Lemma parse_set_line_sizes line set :
  digit_values_decimal -> isdecimal full_stop = false ->
  (length line < 300)%nat ->
  parse_set_line line = Returned (Some set) ->
  weight_finite set = true /\ reps_fit set = true.
Proof.
  intros Hd Hdot Hlen H. destruct set as [w r].
  apply parse_set_line_returned in H as (m & E & Hr & ->).
  apply py_int_returned in Hr as [_ ->].
  apply set_pattern_groups_length in E
    as (w1 & w2 & -> & L1 & [L2n L2] & H1 & H2).
  unfold group, weight_finite, reps_fit.
  rewrite lookup_insert_eq, lookup_insert_ne, lookup_insert_eq by done. simpl.
  rewrite !negb_true_iff. split.
  - assert (Hb : bounded_float 999 946 (py_float w1))
      by (apply py_float_bounded; [done|done|done|lia]).
    destruct (mentions_kg line).
    + eapply bounded_float_finite, (fmul_kg_bounded _ 999 946); [done|lia|lia].
    + by eapply bounded_float_finite.
  - apply int_as_float_fits.
    pose proof (digits_value_below w2 Hd L2).
    pose proof (pow10_below_300 (length w2)).
    destruct pow10_300 as [_ Hlt]. lia.
Qed.

(** A line of fewer than 300 characters raises nothing. *)
Lemma line_error_short line :
  digit_values_decimal -> (length line < 300)%nat -> line_error line = None.
Proof.
  intros Hd Hlen. unfold line_error.
  destruct (re_search set_pattern line) as [m|] eqn:E; [|done].
  apply set_pattern_groups_length in E
    as (w1 & w2 & -> & L1 & [L2n L2] & H1 & H2).
  unfold group. rewrite lookup_insert_eq. simpl.
  destruct (4300 <? Z.of_nat (length w2)) eqn:El;
    [apply Z.ltb_lt in El; lia|].
  rewrite int_as_float_fits; [done|].
  pose proof (digits_value_below w2 Hd L2).
  pose proof (pow10_below_300 (length w2)).
  destruct pow10_300 as [_ Hlt]. lia.
Qed.

Lemma line_errors_short lines :
  digit_values_decimal ->
  forallb (fun l => (length l <? 300)%nat) lines = true ->
  omap line_error (List.map strip lines) = [].
Proof.
  intros Hd. induction lines as [|l lines IH]; [done|].
  cbn [forallb]. intros H. apply andb_prop in H as [Hl H].
  apply Nat.ltb_lt in Hl. rewrite map_cons, omap_cons.
  pose proof (length_strip l).
  rewrite line_error_short by (done || lia). auto.
Qed.

Lemma recognized_sets_sizes lines :
  digit_values_decimal -> isdecimal full_stop = false ->
  forallb (fun l => (length l <? 300)%nat) lines = true ->
  forallb weight_finite (omap recognized (List.map strip lines)) = true.
Proof.
  intros Hd Hdot. induction lines as [|l lines IH]; [done|].
  cbn [forallb]. intros H. apply andb_prop in H as [Hl H].
  apply Nat.ltb_lt in Hl. specialize (IH H).
  rewrite map_cons, omap_cons.
  destruct (recognized (strip l)) as [set|] eqn:E; [|done].
  pose proof (length_strip l). apply recognized_Some in E.
  destruct (parse_set_line_sizes (strip l) set Hd Hdot) as [Hw Hr];
    [lia|done|].
  cbn [forallb]. by rewrite Hw, IH.
Qed.

(** X13. With tables in which a decimal digit has a value of at most 9 and
    the full stop is not a digit (as in the Unicode database): when no line
    of the description has 300 characters or more, the aggregator returns a
    result (it does not raise) and the result's total_volume_lbs is at
    least 0 (it is not NaN). *)
Theorem X13_short_lines_give_a_sound_result description :
  digit_values_decimal -> isdecimal full_stop = false ->
  short_lines description = true ->
  exists m,
    parse_weight_training_description description = Returned m
    /\ fle fzero (total_volume_lbs m) = true.
Proof.
  intros Hd Hdot Hs.
  pose proof (recognized_sets_sizes _ Hd Hdot Hs) as Hw.
  destruct (proj2 (parse_returns_iff description)
              (line_errors_short _ Hd Hs)) as [m Hm].
  pose proof (parse_returned_fits _ _ Hm) as Hr.
  exists m. split; [done|].
  rewrite parse_description_eq in Hm.
  destruct (run_lines init_state _) as [st|e] eqn:E; simpl in Hm; [|done].
  injection Hm as <-. apply run_lines_totals in E as (Ev & _ & _).
  apply at_least_zero_fle. simpl. apply round2_at_least_zero.
  rewrite Ev. apply fold_volume_at_least_zero; try done.
  apply recognized_at_least_zero.
Qed.
End SizeFacts.

(** * Labels before a set, and blank descriptions *)

Lemma drop_while_all p s : forallb p s = true -> drop_while p s = [].
Proof.
  induction s as [|c s IH]; simpl; [done|].
  intros H. apply andb_prop in H as [-> H]. auto.
Qed.

Lemma split_on_pieces (p : N -> bool) sep s :
  forallb (fun c => p c || (c =? sep)%N) s = true ->
  Forall (fun l => forallb p l = true) (split_on sep s).
Proof.
  induction s as [|c s IH]; simpl; [by repeat constructor|].
  intros H. apply andb_prop in H as [Hc H]. specialize (IH H).
  destruct (c =? sep)%N eqn:E; [by constructor|].
  rewrite orb_false_r in Hc.
  pose proof (split_on_nonempty sep s).
  destruct (split_on sep s) as [|h t]; [done|].
  inversion IH; subst. constructor; [|done]. simpl. by rewrite Hc.
Qed.

Section LabelFacts.
Context {U : UnicodeData}.

(** The search passes over characters that are not digits: no match of the
    set pattern starts on them. *)
Lemma re_search_skip pre line :
  forallb (fun c => negb (isdecimal c)) pre = true ->
  re_search set_pattern (pre ++ line) = re_search set_pattern line.
Proof.
  induction pre as [|c pre IH]; [done|].
  cbn [forallb]. intros H. apply andb_prop in H as [Hc H].
  apply negb_true_iff in Hc.
  rewrite <- (IH H). simpl app. rewrite (re_search_eq _ (c :: pre ++ line)).
  unfold set_pattern at 1. rewrite rmatch_seq, rmatch_group.
  unfold number at 1. rewrite rmatch_seq. cbn [rmatch in_class].
  by rewrite Hc.
Qed.

(** X14. Text without digits put before a line (an exercise label, say)
    does not change what [parse_set_line] returns for it, as long as it does
    not change whether the line mentions kg. *)
Theorem X14_digit_free_prefix_is_skipped pre line :
  forallb (fun c => negb (isdecimal c)) pre = true ->
  mentions_kg (pre ++ line) = mentions_kg line ->
  parse_set_line (pre ++ line) = parse_set_line line.
Proof.
  intros Hpre Hkg. unfold parse_set_line.
  by rewrite re_search_skip, Hkg.
Qed.

Lemma strip_all_space l : forallb isspace l = true -> strip l = [].
Proof. intros H. unfold strip. by rewrite (drop_while_all _ _ H). Qed.

Lemma trimmed_lines_blank ls :
  Forall (fun l => forallb isspace l = true) ls ->
  List.filter nonblank (List.map strip ls) = [].
Proof.
  induction 1 as [|l ls Hl _ IH]; [done|].
  simpl. by rewrite (strip_all_space l Hl).
Qed.

(** X15. A description made of white space and newlines only gives the
    all-zero result, like an empty one. *)
Theorem X15_blank_description_gives_zeros s :
  forallb (fun c => isspace c || (c =? newline)%N) s = true ->
  parse_weight_training_description (PyStr s) = Returned zero_metrics.
Proof.
  intros H. rewrite parse_by_trimmed_lines. unfold trimmed_lines.
  rewrite trimmed_lines_blank by (by apply split_on_pieces).
  simpl. by rewrite finish_init_state.
Qed.
End LabelFacts.

(** * The further properties on concrete text *)

Lemma ascii_tables_separate : tables_separate (U := ascii_data).
Proof.
  split; [|vm_compute; reflexivity].
  intros c. simpl. unfold ascii_isdecimal, ascii_isspace.
  rewrite andb_true_iff, orb_false_iff, !andb_false_iff, !N.leb_le,
    !N.leb_gt. lia.
Qed.

Lemma X2_witness :
  parse_set_line (U := ascii_data) plain_set_line <> Returned None
  /\ parse_set_line (U := ascii_data)
       (u "Set 1: " ++ plain_set_line ++ u " [Failure]")
     <> Returned None
  /\ (Z.of_nat (length (u "Set 1: " ++ plain_set_line ++ u " [Failure]"))
      <= 4300 ->
      exists set,
        parse_set_line (U := ascii_data)
          (u "Set 1: " ++ plain_set_line ++ u " [Failure]")
        = Returned (Some set)).
Proof.
  split; [vm_compute; discriminate|].
  apply (X2_context_keeps_recognition (U := ascii_data)).
  vm_compute. discriminate.
Defined.

Lemma X3_witness :
  parse_set_line (U := ascii_data) plain_set_line <> Returned None
  /\ exists a d1 b x c d2 e,
       plain_set_line = a ++ d1 :: b ++ x :: c ++ d2 :: e
       /\ ascii_isdecimal d1 = true /\ is_separator x = true
       /\ ascii_isdecimal d2 = true.
Proof.
  split; [vm_compute; discriminate|].
  apply (X3_recognized_line_has_digit_separator_digit (U := ascii_data)).
  vm_compute. discriminate.
Defined.

Lemma X4_witness :
  parse_set_line (U := ascii_data) kg_set_line
  = Returned (Some (S754_finite false 6205453631558464 (-45), 10))
  /\ fle fzero (S754_finite false 6205453631558464 (-45)) = true
  /\ 0 <= 10.
Proof.
  split; [vm_compute; reflexivity|].
  apply (X4_parsed_weight_and_reps_at_least_zero (U := ascii_data)
           kg_set_line).
  vm_compute. reflexivity.
Defined.

Lemma X6_witness :
  parse_weight_training_description (U := ascii_data) (PyStr hevy_log)
  = Returned hevy_metrics
  /\ forallb weight_finite (recognized_sets (U := ascii_data) (PyStr hevy_log))
     = true
  /\ fle fzero (total_volume_lbs hevy_metrics) = true.
Proof.
  split; [vm_compute; reflexivity|].
  split; [vm_compute; reflexivity|].
  apply (X6_volume_at_least_zero_for_finite_weights (U := ascii_data)
           (PyStr hevy_log)).
  - vm_compute. reflexivity.
  - vm_compute. reflexivity.
Defined.

Lemma X7_witness :
  trimmed_lines (U := ascii_data) (PyStr untidy_text)
  = trimmed_lines (U := ascii_data) (PyStr tidy_text)
  /\ parse_weight_training_description (U := ascii_data) (PyStr untidy_text)
     = parse_weight_training_description (U := ascii_data) (PyStr tidy_text).
Proof.
  split; [vm_compute; reflexivity|].
  apply (X7_only_trimmed_nonblank_lines_matter (U := ascii_data)).
  vm_compute. reflexivity.
Defined.

Lemma X8_witness :
  parse_weight_training_description (U := ascii_data) (PyStr hevy_log)
  = Returned hevy_metrics
  /\ exercise_count hevy_metrics
     <= Z.of_nat (size (list_to_set
                          (label_lines (U := ascii_data) (PyStr hevy_log))
                        : gset (list N))).
Proof.
  split; [vm_compute; reflexivity|].
  apply (X8_exercise_count_at_most_label_lines (U := ascii_data)
           (PyStr hevy_log)).
  vm_compute. reflexivity.
Defined.

Lemma X9_witness :
  parse_weight_training_description (U := ascii_data)
    (PyStr (tidy_text ++ newline :: second_text))
  = Returned joined_metrics
  /\ exists ma mb,
       parse_weight_training_description (U := ascii_data) (PyStr tidy_text)
       = Returned ma
       /\ parse_weight_training_description (U := ascii_data)
            (PyStr second_text)
          = Returned mb
       /\ total_sets joined_metrics = total_sets ma + total_sets mb
       /\ total_reps joined_metrics = total_reps ma + total_reps mb.
Proof.
  split; [vm_compute; reflexivity|].
  apply (X9_sets_and_reps_add_up (U := ascii_data)).
  vm_compute. reflexivity.
Defined.

Lemma X10_witness :
  u "name" <> u "description"
  /\ get_weight_training_metrics (U := ascii_data)
       (<[u "name" := PyStr (u "Workout")]> named_activity)
     = get_weight_training_metrics (U := ascii_data) named_activity
  /\ get_weight_training_metrics (U := ascii_data)
       (delete (u "name") named_activity)
     = get_weight_training_metrics (U := ascii_data) named_activity.
Proof.
  split; [vm_compute; discriminate|].
  apply (X10_adapter_reads_only_description (U := ascii_data)).
  vm_compute. discriminate.
Defined.

Lemma X11_witness :
  tables_separate (U := ascii_data)
  /\ parse_set_line (U := ascii_data)
       (u "62.5" ++ u " " ++ 120%N :: u " " ++ u "8")
     = Returned (Some (S754_finite false 8796093022208000 (-47), 8)).
Proof.
  split; [apply ascii_tables_separate|].
  etransitivity; [|vm_compute; reflexivity].
  apply (X11_exact_on_number_separator_integer (U := ascii_data)).
  - apply ascii_tables_separate.
  - exists (u "62"), (u ".5"). split; [reflexivity|]. split.
    + split; [discriminate|reflexivity].
    + right. exists [full_stop], (u "5"). split; [reflexivity|]. split.
      * exists full_stop. split; reflexivity.
      * split; [discriminate|reflexivity].
  - reflexivity.
  - reflexivity.
  - reflexivity.
  - split; [discriminate|reflexivity].
Defined.

Lemma X12_witness :
  tables_separate (U := ascii_data)
  /\ parse_set_line (U := ascii_data)
       (u "175" ++ u " " ++ u "lbs" ++ u " " ++ 120%N :: u " " ++ u "7")
     = Returned (Some (S754_finite false 6157265115545600 (-45), 7)).
Proof.
  split; [apply ascii_tables_separate|].
  etransitivity; [|vm_compute; reflexivity].
  apply (X12_exact_on_number_unit_separator_integer (U := ascii_data)).
  - apply ascii_tables_separate.
  - exists (u "175"), []. split; [reflexivity|]. split.
    + split; [discriminate|reflexivity].
    + by left.
  - reflexivity.
  - simpl. auto.
  - reflexivity.
  - reflexivity.
  - reflexivity.
  - split; [discriminate|reflexivity].
Defined.

Lemma ascii_digit_values_decimal : digit_values_decimal (U := ascii_data).
Proof.
  intros c. simpl. unfold ascii_isdecimal, ascii_decimal_value.
  rewrite andb_true_iff, !N.leb_le. lia.
Qed.

Lemma X13_witness :
  short_lines hevy_description = true
  /\ exists m,
       parse_weight_training_description (U := ascii_data) hevy_description
       = Returned m
       /\ fle fzero (total_volume_lbs m) = true.
Proof.
  split; [vm_compute; reflexivity|].
  apply (X13_short_lines_give_a_sound_result (U := ascii_data)).
  - apply ascii_digit_values_decimal.
  - reflexivity.
  - vm_compute. reflexivity.
Defined.

Lemma X14_witness :
  mentions_kg (U := ascii_data) (label_prefix ++ bare_set_line)
  = mentions_kg (U := ascii_data) bare_set_line
  /\ parse_set_line (U := ascii_data) (label_prefix ++ bare_set_line)
     = parse_set_line (U := ascii_data) bare_set_line.
Proof.
  split; [vm_compute; reflexivity|].
  apply (X14_digit_free_prefix_is_skipped (U := ascii_data)).
  - vm_compute. reflexivity.
  - vm_compute. reflexivity.
Defined.

Lemma X15_witness :
  forallb (fun c => ascii_isspace c || (c =? newline)%N) blank_text = true
  /\ parse_weight_training_description (U := ascii_data) (PyStr blank_text)
     = Returned zero_metrics.
Proof.
  split; [vm_compute; reflexivity|].
  apply (X15_blank_description_gives_zeros (U := ascii_data)).
  vm_compute. reflexivity.
Defined.
